(** * Antigravity Agent: backup lifecycle coordinator and export/import flows

    A shallow embedding of the React hooks and components that drive the
    backup list ([use-backup-management.ts]), the destructive operations of
    the management section ([ManageSection]) and the export/import flows
    ([use-config-manager]).  Asynchronous functions are embedded as finite
    trees of effects (awaited host commands, timers, synchronous state
    setters); a run against an arbitrary host answers every awaited command
    and records what happened.

    What the embedding leaves out: console logging, the timer by which
    [showStatus] clears its message after five seconds, and rendering.  A
    state setter takes effect at once, and a handler receives the state
    cells it closes over as arguments.

    The first part is the model: the effect trees, the host command
    surface, the hooks, and the collaborators that are not among the
    sources (the bundle codec, the configuration manager, the store and
    the password dialog), each marked where it is written from the
    specification.  The second part states and proves the properties. *)

From Stdlib Require Import String Ascii List ZArith NArith Bool Lia DecimalString.
From ExtLib Require Import Structures.Monad Structures.MonadExc.
From Equations Require Import Equations.
From Equations.Prop Require Import Logic.
Import ListNotations.
Import MonadNotation.
Local Open Scope string_scope.
Local Open Scope monad_scope.

(* ===================================================================== *)
(** ** JavaScript values that the hooks inspect *)
(* ===================================================================== *)

Module Js.

(** A thrown value: an [Error] object or a bare string (what a rejected
    [invoke] carries). *)
Inductive error : Type :=
| ErrorObject (message : string)
| Thrown (s : string).

(** [`${error}`] and [String(error)]. *)
Definition to_string (e : error) : string :=
  match e with
  | ErrorObject m => "Error: " ++ m
  | Thrown s => s
  end.

(** [error instanceof Error ? error.message : String(error)]. *)
Definition message_of (e : error) : string :=
  match e with
  | ErrorObject m => m
  | Thrown s => s
  end.

(** Truthiness of an optional string field: present and not empty. *)
Definition truthy (o : option string) : bool :=
  match o with
  | Some (String _ _) => true
  | _ => false
  end.

(** A field that holds a string when it is set: a reply may leave it out
    ([undefined]) or carry [null] for it. *)
Inductive field : Type :=
| Undefined
| Null
| Str (s : string).

(** [`${x}`] for such a field. *)
Definition interpolate (x : field) : string :=
  match x with
  | Undefined => "undefined"
  | Null => "null"
  | Str s => s
  end.

(** The double quote character, for messages that quote a name. *)
Definition dquote : string := String (ascii_of_nat 34) EmptyString.

(** A promise that has settled. *)
Inductive settled (A : Type) : Type :=
| Resolved (a : A)
| Rejected (e : error).

Arguments Resolved {A} a.
Arguments Rejected {A} e.

Definition is_rejected {A : Type} (r : settled A) : bool :=
  match r with
  | Resolved _ => false
  | Rejected _ => true
  end.

End Js.

(* ===================================================================== *)
(** ** Asynchronous functions as effect trees *)
(* ===================================================================== *)

Module Async.

Import Js.

Section Task.

(** [Cmd] are the awaited external calls, [reply c] the type a call [c]
    resolves with, [Act] the synchronous effects (state setters, status
    callback). *)
Variable Cmd : Type.
Variable reply : Cmd -> Type.
Variable Act : Type.

Inductive task (A : Type) : Type :=
| Return (a : A)
| Throw (e : error)
| Await (c : Cmd) (k : settled (reply c) -> task A)
| Sleep (ms : Z) (k : task A)
| Perform (a : Act) (k : task A).

Arguments Return {A} a.
Arguments Throw {A} e.
Arguments Await {A} c k.
Arguments Sleep {A} ms k.
Arguments Perform {A} a k.

Fixpoint task_bind {A B : Type} (t : task A) (f : A -> task B) : task B :=
  match t with
  | Return a => f a
  | Throw e => Throw e
  | Await c k => Await c (fun r => task_bind (k r) f)
  | Sleep ms k => Sleep ms (task_bind k f)
  | Perform a k => Perform a (task_bind k f)
  end.

(** [try { t } catch (e) { h e }]. *)
Fixpoint task_catch {A : Type} (t : task A) (h : error -> task A) : task A :=
  match t with
  | Return a => Return a
  | Throw e => h e
  | Await c k => Await c (fun r => task_catch (k r) h)
  | Sleep ms k => Sleep ms (task_catch k h)
  | Perform a k => Perform a (task_catch k h)
  end.

(** [try { t } finally { f }]: [f] runs on both exits and the exit of [t]
    is kept, unless [f] itself throws. *)
Fixpoint finally {A : Type} (t : task A) (f : task unit) : task A :=
  match t with
  | Return a => task_bind f (fun _ => Return a)
  | Throw e => task_bind f (fun _ => Throw e)
  | Await c k => Await c (fun r => finally (k r) f)
  | Sleep ms k => Sleep ms (finally k f)
  | Perform a k => Perform a (finally k f)
  end.

(** [await invoke(c)]: a rejection is thrown at the await. *)
Definition invoke (c : Cmd) : task (reply c) :=
  Await c (fun r => match r with
                    | Resolved v => Return v
                    | Rejected e => Throw e
                    end).

(** [await new Promise(resolve => setTimeout(resolve, ms))]. *)
Definition sleep (ms : Z) : task unit := Sleep ms (Return tt).

Definition perform (a : Act) : task unit := Perform a (Return tt).

(** *** Observations of a run *)

Inductive event : Type :=
| Invoked (c : Cmd) (r : settled (reply c))
| Slept (ms : Z)
| Did (a : Act).

(** *** Sequential run against a host

    The host is any state machine that answers each command; the user
    interface state [S] is updated by [exec] at every synchronous effect. *)

Variable H : Type.
Variable respond : H -> forall c : Cmd, settled (reply c) * H.
Variable S : Type.
Variable exec : Act -> S -> S.

Record outcome (A : Type) : Type := Outcome {
  completion : settled A;
  ui : S;
  host : H;
  trace : list event
}.

Arguments Outcome {A} completion ui host trace.
Arguments completion {A} o.
Arguments ui {A} o.
Arguments host {A} o.
Arguments trace {A} o.

Definition logged {A : Type} (e : event) (o : outcome A) : outcome A :=
  Outcome (completion o) (ui o) (host o) (e :: trace o).

Fixpoint run {A : Type} (t : task A) (h : H) (s : S) : outcome A :=
  match t with
  | Return a => Outcome (Resolved a) s h []
  | Throw e => Outcome (Rejected e) s h []
  | Await c k =>
      let (r, h') := respond h c in
      logged (Invoked c r) (run (k r) h' s)
  | Sleep ms k => logged (Slept ms) (run k h s)
  | Perform a k => logged (Did a) (run k h (exec a s))
  end.

(** What a run amounts to when a second run continues it: after a normal
    completion the second run starts from the host and the state the first
    one left; a rejection ends both. *)
Definition continued {A B : Type} (o : outcome A)
    (next : A -> H -> S -> outcome B) : outcome B :=
  match completion o with
  | Resolved a =>
      let o' := next a (host o) (ui o) in
      Outcome (completion o') (ui o') (host o') (trace o ++ trace o')
  | Rejected e => Outcome (Rejected e) (ui o) (host o) (trace o)
  end.

(** The same for a handler that takes over after a rejection. *)
Definition recovered {A : Type} (o : outcome A)
    (handler : error -> H -> S -> outcome A) : outcome A :=
  match completion o with
  | Resolved a => o
  | Rejected e =>
      let o' := handler e (host o) (ui o) in
      Outcome (completion o') (ui o') (host o') (trace o ++ trace o')
  end.

(** *** Cooperative scheduling

    A call of an async function runs synchronously up to its first
    suspension; the suspended remainder sits in the pool until the event
    it waits for is delivered. *)

Fixpoint advance {A : Type} (t : task A) (s : S) : task A * S * list event :=
  match t with
  | Perform a k =>
      let '(t', s', tr) := advance k (exec a s) in (t', s', Did a :: tr)
  | _ => (t, s, [])
  end.

Record system : Type := System {
  sys_ui : S;
  sys_host : H;
  sys_pool : list (task unit);
  sys_log : list event
}.

(** The command a suspended task has issued and not yet received. *)
Definition in_flight {A : Type} (t : task A) : option Cmd :=
  match t with
  | Await c _ => Some c
  | _ => None
  end.

Definition suspended {A : Type} (t : task A) : bool :=
  match t with
  | Await _ _ | Sleep _ _ => true
  | _ => false
  end.

Definition park (t : task unit) (pool : list (task unit)) : list (task unit) :=
  if suspended t then pool ++ [t] else pool.

(** Calling an async function from an event handler. *)
Definition call (t : task unit) (w : system) : system :=
  let '(t', s', tr) := advance t (sys_ui w) in
  System s' (sys_host w) (park t' (sys_pool w)) (sys_log w ++ tr).

Fixpoint remove_nth {X : Type} (i : nat) (l : list X) : list X :=
  match i, l with
  | _, [] => []
  | O, _ :: l' => l'
  | Datatypes.S i', x :: l' => x :: remove_nth i' l'
  end.

(** Delivering the event the [i]-th suspended task waits for. *)
Definition deliver (i : nat) (w : system) : system :=
  match nth_error (sys_pool w) i with
  | Some (Await c k) =>
      let (r, h') := respond (sys_host w) c in
      let '(t', s', tr) := advance (k r) (sys_ui w) in
      System s' h' (park t' (remove_nth i (sys_pool w)))
             (sys_log w ++ Invoked c r :: tr)
  | Some (Sleep ms k) =>
      let '(t', s', tr) := advance k (sys_ui w) in
      System s' (sys_host w) (park t' (remove_nth i (sys_pool w)))
             (sys_log w ++ Slept ms :: tr)
  | _ => w
  end.

Definition deliver_all (schedule : list nat) (w : system) : system :=
  fold_left (fun w' i => deliver i w') schedule w.

End Task.

Arguments task {Cmd} reply Act A.
Arguments event {Cmd} reply Act.
Arguments Return {Cmd reply Act A} a.
Arguments Throw {Cmd reply Act A} e.
Arguments Await {Cmd reply Act A} c k.
Arguments Sleep {Cmd reply Act A} ms k.
Arguments Perform {Cmd reply Act A} a k.
Arguments task_bind {Cmd reply Act A B} t f.
Arguments task_catch {Cmd reply Act A} t h.
Arguments finally {Cmd reply Act A} t f.
Arguments invoke {Cmd reply Act} c.
Arguments sleep {Cmd reply Act} ms.
Arguments perform {Cmd reply Act} a.
Arguments Invoked {Cmd reply Act} c r.
Arguments Slept {Cmd reply Act} ms.
Arguments Did {Cmd reply Act} a.
Arguments Outcome {Cmd reply Act H S A} completion ui host trace.
Arguments completion {Cmd reply Act H S A} o.
Arguments ui {Cmd reply Act H S A} o.
Arguments host {Cmd reply Act H S A} o.
Arguments trace {Cmd reply Act H S A} o.
Arguments run {Cmd reply Act H} respond {S} exec {A} t h s.
Arguments continued {Cmd reply Act H S A B} o next.
Arguments recovered {Cmd reply Act H S A} o handler.
Arguments advance {Cmd reply Act S} exec {A} t s.
Arguments system {Cmd} reply Act H S.
Arguments outcome {Cmd} reply Act H S A.
Arguments System {Cmd reply Act H S} sys_ui sys_host sys_pool sys_log.
Arguments sys_ui {Cmd reply Act H S} s.
Arguments sys_host {Cmd reply Act H S} s.
Arguments sys_pool {Cmd reply Act H S} s.
Arguments sys_log {Cmd reply Act H S} s.
Arguments in_flight {Cmd reply Act A} t.
Arguments suspended {Cmd reply Act A} t.
Arguments park {Cmd reply Act} t pool.
Arguments call {Cmd reply Act H S} exec t w.
Arguments deliver {Cmd reply Act H} respond {S} exec i w.
Arguments deliver_all {Cmd reply Act H} respond {S} exec schedule w.

#[export] Instance Monad_task {Cmd : Type} {reply : Cmd -> Type} {Act : Type}
  : Monad (task reply Act) :=
  {| ret := fun _ a => Return a;
     bind := fun _ _ t f => task_bind t f |}.

#[export] Instance Exc_task {Cmd : Type} {reply : Cmd -> Type} {Act : Type}
  : MonadExc error (task reply Act) :=
  {| raise := fun _ e => Throw e;
     catch := fun _ t h => task_catch t h |}.

End Async.

(* ===================================================================== *)
(** ** Data model of the exported bundle *)
(* ===================================================================== *)

Module Bundle.

Definition bytes : Type := list Byte.byte.

(** Modelled from the spec: the record types of the bundle codec (section 3
    of the specification); their declarations are not among the sources. *)
Record CredentialRecord : Type := {
  identifier : string;
  payload : bytes;
  metadata : option string
}.

(** Modelled from the spec: an ordered collection of records with a format
    version and a creation timestamp. *)
Record CredentialBundle : Type := {
  records : list CredentialRecord;
  version : N;
  created : Z
}.

(** Modelled from the spec: the on-disk artifact. [sealed] is the
    ciphertext together with its authentication tag. *)
Record EncryptedContainer : Type := {
  format_version : N;
  salt : bytes;
  nonce : bytes;
  sealed : bytes
}.

End Bundle.

(* ===================================================================== *)
(** ** The host command surface and the configuration manager service *)
(* ===================================================================== *)

Module Tauri.

Import Js.

(** [AntigravityCurrentUserInfo]: the fields the hook reads. *)
Record AntigravityCurrentUserInfo : Type := {
  apiKey : option string;
  userStatusProtoBinaryBase64 : option string;
  email : field
}.

(** Results of the [ConfigManager] service methods, as the hook reads
    them. *)
Record ImportResult : Type := {
  import_success : bool;
  import_message : string;
  encryptedData : option Bundle.EncryptedContainer
}.

Record DecryptResult : Type := {
  decrypt_success : bool;
  decrypt_message : string;
  configData : option Bundle.CredentialBundle
}.

Record ExportResult : Type := {
  export_success : bool;
  export_message : string;
  filePath : field
}.

(** Every call the hooks await: the commands of [invoke] and the
    asynchronous methods of the configuration manager. *)
Inductive command : Type :=
| list_backups
| get_current_antigravity_info
| backup_antigravity_current_account (email : field)
| delete_backup (name : string)
| clear_all_backups
| switch_to_antigravity_account (accountName : string)
| hasExportableData
| importEncryptedConfig
| decryptConfigData (data : option Bundle.EncryptedContainer) (password : string)
| exportEncryptedConfig (password : string).

Definition reply (c : command) : Type :=
  match c with
  | list_backups => list string
  | get_current_antigravity_info => option AntigravityCurrentUserInfo
  | backup_antigravity_current_account _ => string
  | delete_backup _ => unit
  | clear_all_backups => string
  | switch_to_antigravity_account _ => string
  | hasExportableData => bool
  | importEncryptedConfig => ImportResult
  | decryptConfigData _ _ => DecryptResult
  | exportEncryptedConfig _ => ExportResult
  end.

(** A store mutation or read (as opposed to a service method). *)
Definition is_store_command (c : command) : bool :=
  match c with
  | list_backups | get_current_antigravity_info
  | backup_antigravity_current_account _ | delete_backup _
  | clear_all_backups | switch_to_antigravity_account _ => true
  | _ => false
  end.

Definition is_list_backups (c : command) : bool :=
  match c with
  | list_backups => true
  | _ => false
  end.

End Tauri.

(* ===================================================================== *)
(** ** Application state and synchronous effects *)
(* ===================================================================== *)

Module App.

Import Js Async Tauri.

Record Status : Type := {
  message : string;
  isError : bool
}.

(** The React state cells of [MainApp], [useBackupManagement],
    [ManageSection] and [useConfigManager]. *)
Record State : Type := {
  status : Status;
  backups : list string;
  isRefreshing : bool;
  isInitialLoading : bool;
  isClearDialogOpen : bool;
  isClearing : bool;
  deleteDialogOpen : bool;
  backupToDelete : option string;
  isDeleting : bool;
  switchingAccount : option string;
  isImporting : bool;
  isExporting : bool;
  passwordDialogOpen : bool
}.

(** The state after mounting. *)
Definition initial : State :=
  {| status := {| message := EmptyString; isError := false |};
     backups := [];
     isRefreshing := false;
     isInitialLoading := true;
     isClearDialogOpen := false;
     isClearing := false;
     deleteDialogOpen := false;
     backupToDelete := None;
     isDeleting := false;
     switchingAccount := None;
     isImporting := false;
     isExporting := false;
     passwordDialogOpen := false |}.

(** State setters, the status callback and the two timers that only
    schedule later work. *)
Inductive action : Type :=
| showStatus (message : string) (isError : bool)
| setBackups (l : list string)
| setIsRefreshing (b : bool)
| setIsInitialLoading (b : bool)
| setIsClearDialogOpen (b : bool)
| setIsClearing (b : bool)
| setDeleteDialogOpen (b : bool)
| setBackupToDelete (o : option string)
| setIsDeleting (b : bool)
| setSwitchingAccount (o : option string)
| setIsImporting (b : bool)
| setIsExporting (b : bool)
| closePasswordDialog
| scheduleRefresh (ms : Z).

Definition exec (a : action) (s : State) : State :=
  match a with
  | showStatus m e =>
      {| status := {| message := m; isError := e |}; backups := backups s;
         isRefreshing := isRefreshing s; isInitialLoading := isInitialLoading s;
         isClearDialogOpen := isClearDialogOpen s; isClearing := isClearing s;
         deleteDialogOpen := deleteDialogOpen s; backupToDelete := backupToDelete s;
         isDeleting := isDeleting s; switchingAccount := switchingAccount s;
         isImporting := isImporting s; isExporting := isExporting s;
         passwordDialogOpen := passwordDialogOpen s |}
  | setBackups l =>
      {| status := status s; backups := l;
         isRefreshing := isRefreshing s; isInitialLoading := isInitialLoading s;
         isClearDialogOpen := isClearDialogOpen s; isClearing := isClearing s;
         deleteDialogOpen := deleteDialogOpen s; backupToDelete := backupToDelete s;
         isDeleting := isDeleting s; switchingAccount := switchingAccount s;
         isImporting := isImporting s; isExporting := isExporting s;
         passwordDialogOpen := passwordDialogOpen s |}
  | setIsRefreshing b =>
      {| status := status s; backups := backups s;
         isRefreshing := b; isInitialLoading := isInitialLoading s;
         isClearDialogOpen := isClearDialogOpen s; isClearing := isClearing s;
         deleteDialogOpen := deleteDialogOpen s; backupToDelete := backupToDelete s;
         isDeleting := isDeleting s; switchingAccount := switchingAccount s;
         isImporting := isImporting s; isExporting := isExporting s;
         passwordDialogOpen := passwordDialogOpen s |}
  | setIsInitialLoading b =>
      {| status := status s; backups := backups s;
         isRefreshing := isRefreshing s; isInitialLoading := b;
         isClearDialogOpen := isClearDialogOpen s; isClearing := isClearing s;
         deleteDialogOpen := deleteDialogOpen s; backupToDelete := backupToDelete s;
         isDeleting := isDeleting s; switchingAccount := switchingAccount s;
         isImporting := isImporting s; isExporting := isExporting s;
         passwordDialogOpen := passwordDialogOpen s |}
  | setIsClearDialogOpen b =>
      {| status := status s; backups := backups s;
         isRefreshing := isRefreshing s; isInitialLoading := isInitialLoading s;
         isClearDialogOpen := b; isClearing := isClearing s;
         deleteDialogOpen := deleteDialogOpen s; backupToDelete := backupToDelete s;
         isDeleting := isDeleting s; switchingAccount := switchingAccount s;
         isImporting := isImporting s; isExporting := isExporting s;
         passwordDialogOpen := passwordDialogOpen s |}
  | setIsClearing b =>
      {| status := status s; backups := backups s;
         isRefreshing := isRefreshing s; isInitialLoading := isInitialLoading s;
         isClearDialogOpen := isClearDialogOpen s; isClearing := b;
         deleteDialogOpen := deleteDialogOpen s; backupToDelete := backupToDelete s;
         isDeleting := isDeleting s; switchingAccount := switchingAccount s;
         isImporting := isImporting s; isExporting := isExporting s;
         passwordDialogOpen := passwordDialogOpen s |}
  | setDeleteDialogOpen b =>
      {| status := status s; backups := backups s;
         isRefreshing := isRefreshing s; isInitialLoading := isInitialLoading s;
         isClearDialogOpen := isClearDialogOpen s; isClearing := isClearing s;
         deleteDialogOpen := b; backupToDelete := backupToDelete s;
         isDeleting := isDeleting s; switchingAccount := switchingAccount s;
         isImporting := isImporting s; isExporting := isExporting s;
         passwordDialogOpen := passwordDialogOpen s |}
  | setBackupToDelete o =>
      {| status := status s; backups := backups s;
         isRefreshing := isRefreshing s; isInitialLoading := isInitialLoading s;
         isClearDialogOpen := isClearDialogOpen s; isClearing := isClearing s;
         deleteDialogOpen := deleteDialogOpen s; backupToDelete := o;
         isDeleting := isDeleting s; switchingAccount := switchingAccount s;
         isImporting := isImporting s; isExporting := isExporting s;
         passwordDialogOpen := passwordDialogOpen s |}
  | setIsDeleting b =>
      {| status := status s; backups := backups s;
         isRefreshing := isRefreshing s; isInitialLoading := isInitialLoading s;
         isClearDialogOpen := isClearDialogOpen s; isClearing := isClearing s;
         deleteDialogOpen := deleteDialogOpen s; backupToDelete := backupToDelete s;
         isDeleting := b; switchingAccount := switchingAccount s;
         isImporting := isImporting s; isExporting := isExporting s;
         passwordDialogOpen := passwordDialogOpen s |}
  | setSwitchingAccount o =>
      {| status := status s; backups := backups s;
         isRefreshing := isRefreshing s; isInitialLoading := isInitialLoading s;
         isClearDialogOpen := isClearDialogOpen s; isClearing := isClearing s;
         deleteDialogOpen := deleteDialogOpen s; backupToDelete := backupToDelete s;
         isDeleting := isDeleting s; switchingAccount := o;
         isImporting := isImporting s; isExporting := isExporting s;
         passwordDialogOpen := passwordDialogOpen s |}
  | setIsImporting b =>
      {| status := status s; backups := backups s;
         isRefreshing := isRefreshing s; isInitialLoading := isInitialLoading s;
         isClearDialogOpen := isClearDialogOpen s; isClearing := isClearing s;
         deleteDialogOpen := deleteDialogOpen s; backupToDelete := backupToDelete s;
         isDeleting := isDeleting s; switchingAccount := switchingAccount s;
         isImporting := b; isExporting := isExporting s;
         passwordDialogOpen := passwordDialogOpen s |}
  | setIsExporting b =>
      {| status := status s; backups := backups s;
         isRefreshing := isRefreshing s; isInitialLoading := isInitialLoading s;
         isClearDialogOpen := isClearDialogOpen s; isClearing := isClearing s;
         deleteDialogOpen := deleteDialogOpen s; backupToDelete := backupToDelete s;
         isDeleting := isDeleting s; switchingAccount := switchingAccount s;
         isImporting := isImporting s; isExporting := b;
         passwordDialogOpen := passwordDialogOpen s |}
  | closePasswordDialog =>
      {| status := status s; backups := backups s;
         isRefreshing := isRefreshing s; isInitialLoading := isInitialLoading s;
         isClearDialogOpen := isClearDialogOpen s; isClearing := isClearing s;
         deleteDialogOpen := deleteDialogOpen s; backupToDelete := backupToDelete s;
         isDeleting := isDeleting s; switchingAccount := switchingAccount s;
         isImporting := isImporting s; isExporting := isExporting s;
         passwordDialogOpen := false |}
  | scheduleRefresh _ => s
  end.

Definition job : Type -> Type := task reply action.

Definition log : Type := list (event reply action).

(** The status messages of a run, in the order they were shown. *)
Fixpoint statuses (tr : log) : list Status :=
  match tr with
  | [] => []
  | Did (showStatus m e) :: tr' => {| message := m; isError := e |} :: statuses tr'
  | _ :: tr' => statuses tr'
  end.

Definition errors (tr : log) : list Status :=
  filter isError (statuses tr).

(** The commands of a run, in the order they were issued. *)
Fixpoint commands (tr : log) : list command :=
  match tr with
  | [] => []
  | Invoked c _ :: tr' => c :: commands tr'
  | _ :: tr' => commands tr'
  end.

(** Whether some awaited command of the run was rejected. *)
Fixpoint any_rejected (tr : log) : bool :=
  match tr with
  | [] => false
  | Invoked _ r :: tr' => is_rejected r || any_rejected tr'
  | _ :: tr' => any_rejected tr'
  end.

(** The list a resolved [list_backups] brought back. *)
Definition listing (e : event reply action) : option (list string) :=
  match e with
  | Invoked c r =>
      match c as c0 return settled (reply c0) -> option (list string) with
      | list_backups => fun r0 => match r0 with
                                  | Resolved l => Some l
                                  | Rejected _ => None
                                  end
      | _ => fun _ => None
      end r
  | _ => None
  end.

(** The snapshot a run leaves published: the list of its last resolved
    [list_backups], or the earlier snapshot when there is none. *)
Fixpoint published (tr : log) (before : list string) : list string :=
  match tr with
  | [] => before
  | e :: tr' =>
      match listing e with
      | Some l => published tr' l
      | None => published tr' before
      end
  end.

End App.

(* ===================================================================== *)
(** ** [useBackupManagement] *)
(* ===================================================================== *)

Module BackupManagement.

Import Js Async Tauri App.

(** Delay waited for the file write to finish. *)
Definition FILE_WRITE_DELAY_MS : Z := 500.

Definition fetchBackups : job (list string) :=
  backupList <- invoke list_backups ;;
  perform (setBackups backupList) ;;
  ret backupList.

(** [currentInfo && (currentInfo.apiKey ||
    currentInfo.userStatusProtoBinaryBase64)]. *)
Definition hasValidUserInfo (currentInfo : option AntigravityCurrentUserInfo) : bool :=
  match currentInfo with
  | Some info => truthy (apiKey info) || truthy (userStatusProtoBinaryBase64 info)
  | None => false
  end.

(** [currentInfo.email], read only after the test above. *)
Definition emailOf (currentInfo : option AntigravityCurrentUserInfo) : field :=
  match currentInfo with
  | Some info => email info
  | None => Undefined
  end.

Definition autoBackupCurrentUser : job bool :=
  catch
    (currentInfo <- invoke get_current_antigravity_info ;;
     if hasValidUserInfo currentInfo then
       let userEmail := emailOf currentInfo in
       _ <- invoke (backup_antigravity_current_account userEmail) ;;
       perform (showStatus ("已自动备份当前用户: " ++ interpolate userEmail) false) ;;
       ret true
     else
       perform (showStatus "未检测到已登录的用户" false) ;;
       ret false)
    (fun error =>
       perform (showStatus ("自动备份失败: " ++ to_string error) true) ;;
       ret false).

Definition waitForFileWrite : job unit :=
  sleep FILE_WRITE_DELAY_MS.

Definition refreshBackupList (skipAutoBackup : bool) : job unit :=
  catch
    (_ <- fetchBackups ;;
     autoBackedUp <-
       (if negb skipAutoBackup then
          backedUp <- autoBackupCurrentUser ;;
          if backedUp then
            waitForFileWrite ;;
            _ <- fetchBackups ;;
            ret backedUp
          else ret backedUp
        else ret false) ;;
     perform (setIsInitialLoading false) ;;
     if autoBackedUp then
       perform (showStatus "刷新成功并已更新备份" false)
     else if negb skipAutoBackup then
       ret tt
     else
       perform (showStatus "刷新成功" false))
    (fun error =>
       perform (showStatus ("获取备份列表失败: " ++ to_string error) true) ;;
       perform (setIsInitialLoading false)).

Definition handleRefresh : job unit :=
  perform (setIsRefreshing true) ;;
  finally
    (catch
       (refreshBackupList false)
       (fun error => perform (showStatus ("刷新失败: " ++ to_string error) true)))
    (perform (setIsRefreshing false)).

End BackupManagement.

(* ===================================================================== *)
(** ** [ManageSection] *)
(* ===================================================================== *)

Module ManageSection.

Import Js Async Tauri App.

(** The [onRefresh] property: the component tests it before calling it. *)
Definition refresher : Type := option (bool -> job unit).

Definition callRefresh (onRefresh : refresher) (skipAutoBackup : bool) : job unit :=
  match onRefresh with
  | Some f => f skipAutoBackup
  | None => ret tt
  end.

Definition handleDeleteBackup (backupName : string) : job unit :=
  perform (setBackupToDelete (Some backupName)) ;;
  perform (setDeleteDialogOpen true).

(** [backupToDelete] is the value of the state cell at the time of the
    click; [null] and the empty string are both falsy. *)
Definition confirmDeleteBackup (onRefresh : refresher)
    (backupToDelete : option string) : job unit :=
  match backupToDelete with
  | Some (String a name) =>
      let backupName := String a name in
      perform (setIsDeleting true) ;;
      finally
        (catch
           (_ <- invoke (delete_backup backupName) ;;
            perform (showStatus ("备份 " ++ dquote ++ backupName ++ dquote ++ " 删除成功") false) ;;
            perform (setDeleteDialogOpen false) ;;
            perform (setBackupToDelete None) ;;
            callRefresh onRefresh true)
           (fun error =>
              perform (showStatus ("删除备份失败: " ++ to_string error) true)))
        (perform (setIsDeleting false))
  | _ => ret tt
  end.

Definition handleSwitchAccount (backupName : string) : job unit :=
  perform (setSwitchingAccount (Some backupName)) ;;
  finally
    (catch
       (_ <- invoke (switch_to_antigravity_account backupName) ;;
        perform (showStatus ("已切换到用户: " ++ backupName) false))
       (fun error =>
          perform (showStatus ("切换用户失败: " ++ to_string error) true)))
    (perform (setSwitchingAccount None)).

(** [backups] is the list the component was rendered with. *)
Definition handleClearAllBackups (backups : list string) : job unit :=
  if Nat.eqb (length backups) 0 then
    perform (showStatus "当前没有用户备份可清空" true)
  else
    perform (setIsClearDialogOpen true).

Definition confirmClearAllBackups (onRefresh : refresher) : job unit :=
  perform (setIsClearing true) ;;
  finally
    (catch
       (result <- invoke clear_all_backups ;;
        perform (showStatus result false) ;;
        perform (setIsClearDialogOpen false) ;;
        callRefresh onRefresh true)
       (fun error =>
          perform (showStatus ("清空备份失败: " ++ to_string error) true)))
    (perform (setIsClearing false)).

(** [MainApp] passes [refreshBackupList] as [onRefresh]. *)
Definition onRefresh : refresher := Some BackupManagement.refreshBackupList.

End ManageSection.

(* ===================================================================== *)
(** ** [useConfigManager] *)
(* ===================================================================== *)

Module ConfigManagerHook.

Import Js Async Tauri App.

Record PasswordValidation : Type := {
  isValid : bool;
  validationMessage : option string
}.

Record PasswordDialogConfig : Type := {
  title : string;
  description : option string;
  requireConfirmation : bool;
  onSubmit : string -> job unit;
  validatePassword : string -> PasswordValidation
}.

(** Effects of [importConfig] and [exportConfig] themselves: those of the
    application, and opening the password dialog. *)
Inductive flow_action : Type :=
| App (a : action)
| showPasswordDialog (config : PasswordDialogConfig).

Definition flow : Type -> Type := task reply flow_action.

Definition exec_flow (a : flow_action) (s : State) : State :=
  match a with
  | App a' => exec a' s
  | showPasswordDialog _ =>
      {| status := status s; backups := backups s;
         isRefreshing := isRefreshing s; isInitialLoading := isInitialLoading s;
         isClearDialogOpen := isClearDialogOpen s; isClearing := isClearing s;
         deleteDialogOpen := deleteDialogOpen s; backupToDelete := backupToDelete s;
         isDeleting := isDeleting s; switchingAccount := switchingAccount s;
         isImporting := isImporting s; isExporting := isExporting s;
         passwordDialogOpen := true |}
  end.

(** The dialogs a flow opened, in order. *)
Fixpoint prompts (tr : list (event reply flow_action)) : list PasswordDialogConfig :=
  match tr with
  | [] => []
  | Did (showPasswordDialog config) :: tr' => config :: prompts tr'
  | _ :: tr' => prompts tr'
  end.

Fixpoint flow_statuses (tr : list (event reply flow_action)) : list Status :=
  match tr with
  | [] => []
  | Did (App (showStatus m e)) :: tr' =>
      {| message := m; isError := e |} :: flow_statuses tr'
  | _ :: tr' => flow_statuses tr'
  end.

Fixpoint flow_commands (tr : list (event reply flow_action)) : list command :=
  match tr with
  | [] => []
  | Invoked c _ :: tr' => c :: flow_commands tr'
  | _ :: tr' => flow_commands tr'
  end.

Section Hook.

(** [configManager.validatePassword]: the shared password policy. *)
Variable configManager_validatePassword : string -> PasswordValidation.

(** [`${configData.version}`]. *)
Definition show_version (v : N) : string :=
  NilZero.string_of_uint (N.to_uint v).

Definition importOnSubmit (result : ImportResult) (password : string) : job unit :=
  finally
    (catch
       (perform closePasswordDialog ;;
        perform (setIsImporting true) ;;
        perform (showStatus "正在解密配置文件..." false) ;;
        decryptResult <- invoke (decryptConfigData (encryptedData result) password) ;;
        match decrypt_success decryptResult, configData decryptResult with
        | true, Some data =>
            perform (showStatus ("配置文件导入成功 (版本: "
                                 ++ show_version (Bundle.version data) ++ ")") false) ;;
            perform (scheduleRefresh 500)
        | _, _ =>
            perform (showStatus (decrypt_message decryptResult) true)
        end)
       (fun error =>
          perform (showStatus ("导入配置文件失败: " ++ message_of error) true)))
    (perform (setIsImporting false)).

Definition importConfig : flow unit :=
  catch
    (result <- invoke importEncryptedConfig ;;
     if negb (import_success result) then
       perform (App (showStatus (import_message result) true))
     else
       perform (showPasswordDialog
                  {| title := "导入配置文件";
                     description := Some "请输入配置文件的解密密码";
                     requireConfirmation := false;
                     validatePassword :=
                       fun password => configManager_validatePassword password;
                     onSubmit := importOnSubmit result |}))
    (fun error =>
       perform (App (showStatus ("选择文件失败: " ++ message_of error) true))).

Definition exportOnSubmit (password : string) : job unit :=
  finally
    (catch
       (perform closePasswordDialog ;;
        perform (setIsExporting true) ;;
        perform (showStatus "正在生成加密配置文件..." false) ;;
        exportResult <- invoke (exportEncryptedConfig password) ;;
        if export_success exportResult then
          perform (showStatus ("配置文件已保存: "
                               ++ interpolate (filePath exportResult)) false)
        else
          perform (showStatus (export_message exportResult) true))
       (fun error =>
          perform (showStatus ("导出配置文件失败: " ++ message_of error) true)))
    (perform (setIsExporting false)).

Definition exportConfig : flow unit :=
  hasData <- invoke hasExportableData ;;
  if negb hasData then
    perform (App (showStatus "没有找到任何用户信息，无法导出配置文件" true))
  else
    perform (showPasswordDialog
               {| title := "导出配置文件";
                  description := Some "请设置导出密码，用于保护您的配置文件";
                  requireConfirmation := true;
                  validatePassword :=
                    fun password => configManager_validatePassword password;
                  onSubmit := exportOnSubmit |}).

End Hook.

End ConfigManagerHook.

(* ===================================================================== *)
(** ** The bundle codec *)
(* ===================================================================== *)

(** Modelled from the spec: the deterministic serialization of a bundle
    (section 4.2).  The service that implements it
    ([services/config-export-manager]) is not among the sources; the byte
    format here is length-prefixed fields with base-128 lengths, and every
    payload is copied as it is. *)
Module Wire.

Import Bundle.
Local Open Scope list_scope.

(** The byte with the value [n mod 256]. *)
Definition byte_of_N (n : N) : Byte.byte :=
  match Byte.of_N (n mod 256) with
  | Some b => b
  | None => Byte.x00
  end.

Local Unset Equations With Funext.

(** A length or a version in base 128, low digits first; the high bit of
    a byte says that more digits follow. *)
Equations? put_N (n : N) : bytes by wf (N.to_nat (N.size n)) lt :=
  put_N n with inspect (n <? 128)%N := {
    | exist _ true _ => [byte_of_N n]
    | exist _ false _ => byte_of_N (128 + n mod 128) :: put_N (n / 128)
  }.
Proof.
  assert (Hn : (128 <= n)%N) by now apply N.ltb_ge.
  assert (Hlog : (7 <= N.log2 n)%N)
    by (change 7%N with (N.log2 128); apply N.log2_le_mono; exact Hn).
  rewrite (N.size_log2 n) by lia.
  destruct (N.eq_dec (n / 128) 0) as [E|E].
  - rewrite E. cbn. lia.
  - rewrite (N.size_log2 _ E).
    change 128%N with (2 ^ 7)%N.
    rewrite <- N.shiftr_div_pow2, N.log2_shiftr. lia.
Qed.

(** Reads what [put_N] wrote and returns the rest of the input. *)
Fixpoint get_N (l : bytes) : option (N * bytes) :=
  match l with
  | [] => None
  | b :: rest =>
      let v := Byte.to_N b in
      if (v <? 128)%N then Some (v, rest)
      else match get_N rest with
           | Some (hi, rest') => Some (v - 128 + 128 * hi, rest')%N
           | None => None
           end
  end.

(** A byte string, the payload of a record among them: its length, then
    its bytes unchanged. *)
Definition put_bytes (l : bytes) : bytes :=
  put_N (N.of_nat (length l)) ++ l.

Definition put_string (s : string) : bytes :=
  put_bytes (list_byte_of_string s).

Definition put_option_string (o : option string) : bytes :=
  match o with
  | None => [Byte.x00]
  | Some s => Byte.x01 :: put_string s
  end.

(** A timestamp: a sign byte, then the magnitude. *)
Definition put_Z (z : Z) : bytes :=
  if (z <? 0)%Z then Byte.x01 :: put_N (Z.to_N (- z))
  else Byte.x00 :: put_N (Z.to_N z).

Definition put_record (r : CredentialRecord) : bytes :=
  put_string (identifier r) ++ put_bytes (payload r) ++ put_option_string (metadata r).

Definition put_records (rs : list CredentialRecord) : bytes :=
  put_N (N.of_nat (length rs)) ++ concat (map put_record rs).

(** Modelled from the spec: the serialized bundle, the same bytes for the
    same bundle: version, timestamp, then the records in order. *)
Definition serialize (B : CredentialBundle) : bytes :=
  put_N (version B) ++ put_Z (created B) ++ put_records (records B).

(** A reader consumes a prefix of the input or fails. *)
Definition parser (A : Type) : Type := bytes -> option (A * bytes).

#[export] Instance Monad_parser : Monad parser :=
  {| ret := fun _ a l => Some (a, l);
     bind := fun _ _ p f l => match p l with
                              | Some (a, l') => f a l'
                              | None => None
                              end |}.

Definition fail {A : Type} : parser A := fun _ => None.

Definition get_byte : parser Byte.byte :=
  fun l => match l with
           | [] => None
           | b :: rest => Some (b, rest)
           end.

Definition take (n : nat) : parser bytes :=
  fun l => if Nat.ltb (length l) n then None else Some (firstn n l, skipn n l).

Definition get_bytes : parser bytes :=
  n <- get_N ;; take (N.to_nat n).

Definition get_string : parser string :=
  l <- get_bytes ;; ret (string_of_list_byte l).

Definition get_option_string : parser (option string) :=
  tag <- get_byte ;;
  match Byte.to_N tag with
  | 0%N => ret None
  | 1%N => s <- get_string ;; ret (Some s)
  | _ => fail
  end.

Definition get_Z : parser Z :=
  tag <- get_byte ;;
  n <- get_N ;;
  match Byte.to_N tag with
  | 0%N => ret (Z.of_N n)
  | 1%N => ret (- Z.of_N n)%Z
  | _ => fail
  end.

Definition get_record : parser CredentialRecord :=
  id <- get_string ;;
  p <- get_bytes ;;
  m <- get_option_string ;;
  ret {| identifier := id; payload := p; metadata := m |}.

Fixpoint get_records (n : nat) : parser (list CredentialRecord) :=
  match n with
  | O => ret []
  | S n' => r <- get_record ;; rs <- get_records n' ;; ret (r :: rs)
  end.

Definition get_bundle : parser CredentialBundle :=
  v <- get_N ;;
  c <- get_Z ;;
  n <- get_N ;;
  rs <- get_records (N.to_nat n) ;;
  ret {| records := rs; version := v; created := c |}.

(** Modelled from the spec: the inverse of [serialize]; it fails on input
    that is not a whole bundle. *)
Definition deserialize (l : bytes) : option CredentialBundle :=
  match get_bundle l with
  | Some (B, []) => Some B
  | _ => None
  end.

End Wire.

Module Codec.

Import Bundle Wire.

(** Modelled from the spec: the failures of [decode] (sections 4.2, 7). *)
Inductive CryptoError : Type :=
| AuthenticationFailed
| UnsupportedVersion.

(** Modelled from the spec: the key derivation of section 4.1 and the
    authenticated cipher that section 4.2 relies on, as an interface.
    [seal] returns the ciphertext with its tag; [unseal] verifies the tag
    and fails when it does not verify. *)
Class Primitives : Type := {
  derive : string -> bytes -> bytes;
  seal : bytes -> bytes -> bytes -> bytes;
  unseal : bytes -> bytes -> bytes -> option bytes;
  unseal_seal : forall key nonce plain,
      unseal key nonce (seal key nonce plain) = Some plain
}.

(** Modelled from the spec: the format version this codec writes. *)
Definition CURRENT_VERSION : N := 1.

Section WithPrimitives.
Context {prim : Primitives}.

(** Modelled from the spec: [encode] serializes the bundle, derives the
    key from the password and the fresh salt, and seals under the fresh
    nonce; the randomness it consumes is passed in. *)
Definition encode (B : CredentialBundle) (P : string)
    (fresh_salt fresh_nonce : bytes) : EncryptedContainer :=
  {| format_version := CURRENT_VERSION;
     salt := fresh_salt;
     nonce := fresh_nonce;
     sealed := seal (derive P fresh_salt) fresh_nonce (serialize B) |}.

(** Modelled from the spec: [decode] rejects a newer format, derives the
    key from the stored salt, and opens the box; a box that does not verify
    or does not hold a bundle is an authentication failure. *)
Definition decode (C : EncryptedContainer) (P : string)
  : CryptoError + CredentialBundle :=
  if (CURRENT_VERSION <? format_version C)%N then inl UnsupportedVersion
  else
    match unseal (derive P (salt C)) (nonce C) (sealed C) with
    | None => inl AuthenticationFailed
    | Some plain =>
        match deserialize plain with
        | Some B => inr B
        | None => inl AuthenticationFailed
        end
    end.

End WithPrimitives.

End Codec.

(** An instance of the interface for running the codec on concrete
    bundles: a running shift of every byte, with a one-byte checksum as
    tag.  It stands for no cipher of the application. *)
Module Toy.

Import Bundle Wire.
Local Open Scope list_scope.

Definition weight (l : bytes) : N :=
  fold_right (fun b acc => (Byte.to_N b + acc)%N) 0%N l.

Fixpoint shift (pad : N) (l : bytes) : bytes :=
  match l with
  | [] => []
  | b :: l' => byte_of_N (Byte.to_N b + pad) :: shift (pad + 1) l'
  end.

Fixpoint unshift (pad : N) (l : bytes) : bytes :=
  match l with
  | [] => []
  | c :: l' => byte_of_N (Byte.to_N c + 256 - pad mod 256) :: unshift (pad + 1) l'
  end.

Definition toy_tag (key nonce body : bytes) : Byte.byte :=
  byte_of_N (weight key + 3 * weight nonce + 7 * weight body).

Definition toy_seal (key nonce plain : bytes) : bytes :=
  let body := shift (weight key + weight nonce) plain in
  toy_tag key nonce body :: body.

Definition toy_unseal (key nonce box : bytes) : option bytes :=
  match box with
  | [] => None
  | t :: body =>
      if Byte.eqb t (toy_tag key nonce body)
      then Some (unshift (weight key + weight nonce) body)
      else None
  end.

Definition toy_derive (P : string) (salt : bytes) : bytes :=
  (shift (weight salt) (list_byte_of_string P) ++ salt)%list.

(** The toy cipher implements the interface: it opens what it sealed. *)
#[export] Instance toy : Codec.Primitives.
Proof.
  refine {| Codec.derive := toy_derive;
            Codec.seal := toy_seal;
            Codec.unseal := toy_unseal;
            Codec.unseal_seal := _ |}.
  intros key nonce plain. unfold toy_unseal, toy_seal.
  rewrite (Byte.byte_dec_lb eq_refl). f_equal.
  generalize (weight key + weight nonce)%N as pad.
  induction plain as [|b l IH]; intros pad; [reflexivity|].
  cbn [shift unshift]. rewrite IH. f_equal.
  pose proof (Byte.to_N_bounded b) as Hb.
  assert (Hback : Byte.to_N (byte_of_N (Byte.to_N b + pad))
                  = ((Byte.to_N b + pad) mod 256)%N).
  { unfold byte_of_N.
    destruct (Byte.of_N ((Byte.to_N b + pad) mod 256)) as [c|] eqn:E.
    - now apply Byte.to_of_N.
    - apply Byte.of_N_None_iff in E.
      pose proof (N.mod_upper_bound (Byte.to_N b + pad) 256). lia. }
  rewrite Hback. unfold byte_of_N at 1.
  replace (((Byte.to_N b + pad) mod 256 + 256 - pad mod 256) mod 256)%N
    with (Byte.to_N b)
    by (zify; Z.to_euclidean_division_equations; lia).
  rewrite Byte.of_to_N. reflexivity.
Defined.

End Toy.

(* ===================================================================== *)
(** ** Collaborators that are not among the sources *)
(* ===================================================================== *)

Module ConfigManager.

Import Bundle Codec Tauri.

(** Modelled from the spec: the one message of an authentication failure
    (section 4.4, import step 3). *)
Definition AUTH_FAILED_MESSAGE : string := "incorrect password or corrupted file".

(** Modelled from the spec: the message of import step 4. *)
Definition UNSUPPORTED_MESSAGE : string := "unsupported version".

(** A result that reports a failure with its message. *)
Definition failed (m : string) : DecryptResult :=
  {| decrypt_success := false; decrypt_message := m; configData := None |}.

Section WithPrimitives.

Context {prim : Primitives}.

(** Modelled from the spec: [ConfigManager.decryptConfigData], steps 3 and
    4 of the import flow: decode, then check the version of the bundle. *)
Definition decryptConfigData (data : option EncryptedContainer)
    (password : string) : DecryptResult :=
  match data with
  | None => failed AUTH_FAILED_MESSAGE
  | Some C =>
      match decode C password with
      | inl AuthenticationFailed => failed AUTH_FAILED_MESSAGE
      | inl UnsupportedVersion => failed UNSUPPORTED_MESSAGE
      | inr B =>
          if (version B <=? CURRENT_VERSION)%N then
            {| decrypt_success := true;
               decrypt_message := EmptyString;
               configData := Some B |}
          else failed UNSUPPORTED_MESSAGE
      end
  end.

End WithPrimitives.

End ConfigManager.

Module Store.

Import Js Tauri.

(** Modelled from the spec: the external backup store behind the host
    command surface (section 6): the entries by name and the live
    account. *)
Record store : Type := {
  entries : list string;
  live : option AntigravityCurrentUserInfo
}.

Definition has (name : string) (s : store) : bool :=
  existsb (String.eqb name) (entries s).

Definition without (name : string) (l : list string) : list string :=
  filter (fun n => negb (String.eqb name n)) l.

Definition count (n : nat) : string :=
  NilZero.string_of_uint (Nat.to_uint n).

(** Modelled from the spec: the answers of the store.  A write overwrites
    by name, deleting a name that is absent is an error, clearing reports
    the number of entries removed. *)
Definition respond (s : store) (c : command) : settled (reply c) * store :=
  match c as c0 return settled (reply c0) * store with
  | list_backups => (Resolved (entries s), s)
  | get_current_antigravity_info => (Resolved (live s), s)
  | backup_antigravity_current_account email =>
      match email with
      | Str name =>
          (Resolved name,
           {| entries := if has name s then entries s else (entries s ++ [name])%list;
              live := live s |})
      | _ => (Rejected (Thrown "no account to back up"), s)
      end
  | delete_backup name =>
      if has name s then
        (Resolved tt, {| entries := without name (entries s); live := live s |})
      else (Rejected (Thrown ("backup not found: " ++ name)), s)
  | clear_all_backups =>
      (Resolved (count (length (entries s))), {| entries := []; live := live s |})
  | switch_to_antigravity_account name =>
      if has name s then (Resolved name, s)
      else (Rejected (Thrown ("backup not found: " ++ name)), s)
  | hasExportableData => (Resolved (negb (Nat.eqb (length (entries s)) 0)), s)
  | importEncryptedConfig => (Rejected (Thrown "not a store command"), s)
  | decryptConfigData _ _ => (Rejected (Thrown "not a store command"), s)
  | exportEncryptedConfig _ => (Rejected (Thrown "not a store command"), s)
  end.

End Store.

Module PasswordDialog.

Import App ConfigManagerHook.

(** Modelled from the spec: the password prompt (sections 4.4 and 6).  The
    dialog validates the entry with the policy it was given and, when
    confirmation is required, treats a second entry that differs like an
    invalid password; only then does it call [onSubmit]. *)
Definition submit (config : PasswordDialogConfig)
    (password confirmation : string) : option (job unit) :=
  if negb (isValid (validatePassword config password)) then None
  else if requireConfirmation config && negb (String.eqb password confirmation) then None
  else Some (onSubmit config password).

End PasswordDialog.

(* ===================================================================== *)
(** ** Observations used by the statements *)
(* ===================================================================== *)

Module Observe.

Import Js Async Tauri App.

(** What a run does outside the user interface, in order. *)
Inductive step : Type :=
| Call (c : command)
| Wait (ms : Z).

Fixpoint timeline (tr : log) : list step :=
  match tr with
  | [] => []
  | Invoked c _ :: tr' => Call c :: timeline tr'
  | Slept ms :: tr' => Wait ms :: timeline tr'
  | Did _ :: tr' => timeline tr'
  end.

(** Whether a run waited on a timer. *)
Fixpoint delayed (tr : log) : bool :=
  match tr with
  | [] => false
  | Slept _ :: _ => true
  | _ :: tr' => delayed tr'
  end.

(** Whether a write of the live account was acknowledged. *)
Definition acknowledged_write (e : event reply action) : bool :=
  match e with
  | Invoked (backup_antigravity_current_account _) (Resolved _) => true
  | _ => false
  end.

Definition write_succeeded (tr : log) : bool :=
  existsb acknowledged_write tr.

(** Whether some list read of the run succeeded. *)
Definition read_succeeded (tr : log) : bool :=
  existsb (fun e => match listing e with
                    | Some _ => true
                    | None => false
                    end) tr.

(** The suspended tasks that wait for a [list_backups] reply. *)
Definition fetching (t : job unit) : bool :=
  match in_flight t with
  | Some c => is_list_backups c
  | None => false
  end.

Definition outstanding_fetches {H : Type} (w : system reply action H State) : nat :=
  length (filter fetching (sys_pool w)).

(** The operations of the coordinator, as [MainApp] wires them. *)
Inductive operation : Type :=
| Refresh (skipAutoBackup : bool)
| RefreshButton
| Delete (name : string)
| ClearAll.

Definition job_of (op : operation) : job unit :=
  match op with
  | Refresh skipAutoBackup => BackupManagement.refreshBackupList skipAutoBackup
  | RefreshButton => BackupManagement.handleRefresh
  | Delete name =>
      ManageSection.confirmDeleteBackup ManageSection.onRefresh (Some name)
  | ClearAll => ManageSection.confirmClearAllBackups ManageSection.onRefresh
  end.

(** A delete is confirmed for a name; the handler ignores an empty one. *)
Definition names_a_backup (op : operation) : bool :=
  match op with
  | Delete EmptyString => false
  | _ => true
  end.

(** The loading flag an operation owns. *)
Definition busy (op : operation) (s : State) : bool :=
  match op with
  | Refresh _ => isInitialLoading s
  | RefreshButton => isRefreshing s || isInitialLoading s
  | Delete _ => isDeleting s
  | ClearAll => isClearing s
  end.

End Observe.

(* ===================================================================== *)
(** ** Concrete hosts and states *)
(* ===================================================================== *)

Module Scenario.

Import Js Async Tauri App.

Definition alice : AntigravityCurrentUserInfo :=
  {| apiKey := Some "sk-alice";
     userStatusProtoBinaryBase64 := None;
     email := Str "alice@example.com" |}.

(** A store with one backup and a logged-in account. *)
Definition home : Store.store :=
  {| Store.entries := ["bob@example.com"]; Store.live := Some alice |}.

Definition empty_store : Store.store :=
  {| Store.entries := []; Store.live := None |}.

(** A host that is not reachable: every command is rejected. *)
Definition offline (h : unit) (c : command) : settled (reply c) * unit :=
  (Rejected (Thrown "offline"), h).

(** A host whose list read works once and fails afterwards; the state
    counts the commands answered. *)
Definition flaky (n : nat) (c : command) : settled (reply c) * nat :=
  (match c as c0 return settled (reply c0) with
   | list_backups =>
       if Nat.eqb n 0 then Resolved ["alice@example.com"]
       else Rejected (Thrown "disk busy")
   | get_current_antigravity_info => Resolved (Some alice)
   | backup_antigravity_current_account _ => Resolved "saved"
   | _ => Rejected (Thrown "not scripted")
   end, S n).

(** The user interface after an earlier refresh showed one backup. *)
Definition stale : State :=
  exec (setIsInitialLoading false) (exec (setBackups ["old@example.com"]) initial).

(** A coordinator with nothing in flight. *)
Definition idle : system reply action Store.store State :=
  System initial home [] [].

End Scenario.

Module Desk.

Import Js Async Tauri App Bundle Codec ConfigManagerHook.

Definition accounts : CredentialBundle :=
  {| records :=
       [{| identifier := "alice@example.com";
           payload := [Byte.x00; Byte.xff; Byte.x41];
           metadata := Some "alice@example.com" |};
        {| identifier := "bob@example.com";
           payload := [];
           metadata := None |}];
     version := 1;
     created := 1730000000 |}.

Definition exported : EncryptedContainer :=
  encode (prim := Toy.toy) accounts "Str0ngPass!" [Byte.x01; Byte.x02] [Byte.x09].

(** The same container with the first byte of its box overwritten. *)
Definition damaged : EncryptedContainer :=
  {| format_version := format_version exported;
     salt := salt exported;
     nonce := nonce exported;
     sealed := Byte.x00 :: tl (sealed exported) |}.

Definition picked : ImportResult :=
  {| import_success := true;
     import_message := EmptyString;
     encryptedData := Some exported |}.

(** A host with nothing to export, where the user picks [exported] for
    import and the configuration manager decrypts with the toy cipher. *)
Definition respond (h : unit) (c : command) : settled (reply c) * unit :=
  (match c as c0 return settled (reply c0) with
   | decryptConfigData data password =>
       Resolved (ConfigManager.decryptConfigData (prim := Toy.toy) data password)
   | importEncryptedConfig => Resolved picked
   | hasExportableData => Resolved false
   | _ => Rejected (Thrown "not scripted")
   end, h).

(** A password policy: at least eight characters. *)
Definition policy (password : string) : PasswordValidation :=
  {| isValid := Nat.leb 8 (String.length password);
     validationMessage :=
       if Nat.leb 8 (String.length password) then None
       else Some "at least 8 characters" |}.

End Desk.

(* ===================================================================== *)
(** ** Further observations of a run *)
(* ===================================================================== *)

Module Watch.

Import Js Async Tauri App.

(** The refreshes a run scheduled on a timer, by their delays. *)
Fixpoint scheduled (tr : log) : list Z :=
  match tr with
  | [] => []
  | Did (scheduleRefresh ms) :: tr' => ms :: scheduled tr'
  | _ :: tr' => scheduled tr'
  end.

End Watch.

(* ===================================================================== *)
(** ** Timers *)
(* ===================================================================== *)

Module Timers.

Section World.

(** [S] are the state cells the timer callbacks write. *)
Variable S : Type.

(** A pending [setTimeout]: its handle, the time it is due and what it
    runs.  The callbacks of this application only write state cells. *)
Record timer : Type := {
  handle : nat;
  due : Z;
  callback : S -> S
}.

Record world : Type := World {
  cells : S;
  now : Z;
  fresh : nat;
  pending : list timer
}.

(** A mounted component: no timer, the clock at zero. *)
Definition boot (s : S) : world := World s 0 1 [].

Definition write (f : S -> S) (w : world) : world :=
  World (f (cells w)) (now w) (fresh w) (pending w).

(** [setTimeout(callback, ms)]: a new handle, due [ms] from now (at once
    for a negative delay). *)
Definition setTimeout (cb : S -> S) (ms : Z) (w : world) : nat * world :=
  (fresh w,
   World (cells w) (now w) (Datatypes.S (fresh w))
         (pending w ++ [{| handle := fresh w; due := now w + Z.max 0 ms;
                           callback := cb |}])).

(** [clearTimeout(handle)]. *)
Definition clearTimeout (i : nat) (w : world) : world :=
  World (cells w) (now w) (fresh w)
        (filter (fun t => negb (Nat.eqb (handle t) i)) (pending w)).

(** The timer that fires next: the least due time, the older timer first
    among equals. *)
Fixpoint earliest (l : list timer) : option timer :=
  match l with
  | [] => None
  | t :: l' =>
      match earliest l' with
      | Some t' => if (due t' <? due t)%Z then Some t' else Some t
      | None => Some t
      end
  end.

(** Fire, in order, the timers due up to [limit]; no callback sets a
    timer, so one round for each pending timer is enough. *)
Fixpoint fire (rounds : nat) (limit : Z) (w : world) : world :=
  match rounds with
  | O => w
  | Datatypes.S rounds' =>
      match earliest (pending w) with
      | Some t =>
          if (due t <=? limit)%Z then
            fire rounds' limit
                 (World (callback t (cells w)) (due t) (fresh w)
                        (filter (fun t' => negb (Nat.eqb (handle t') (handle t)))
                                (pending w)))
          else w
      | None => w
      end
  end.

(** Let [d] milliseconds pass. *)
Definition elapse (d : Z) (w : world) : world :=
  let limit := (now w + Z.max 0 d)%Z in
  let w' := fire (length (pending w)) limit w in
  World (cells w') limit (fresh w') (pending w').

End World.

Arguments handle {S} t.
Arguments due {S} t.
Arguments callback {S} t.
Arguments World {S} cells now fresh pending.
Arguments cells {S} w.
Arguments now {S} w.
Arguments fresh {S} w.
Arguments pending {S} w.
Arguments boot {S} s.
Arguments write {S} f w.
Arguments setTimeout {S} cb ms w.
Arguments clearTimeout {S} i w.
Arguments earliest {S} l.
Arguments fire {S} rounds limit w.
Arguments elapse {S} d w.

End Timers.

(* ===================================================================== *)
(** ** [useStatusNotification] *)
(* ===================================================================== *)

Module StatusNotification.

Import Timers.

(** The status cell and the [timeoutRef] of the hook. *)
Record Cells : Type := {
  status : App.Status;
  timeoutRef : option nat
}.

Definition blank : App.Status :=
  {| App.message := EmptyString; App.isError := false |}.

Definition mounted : world Cells :=
  boot {| status := blank; timeoutRef := None |}.

Definition setStatus (st : App.Status) (c : Cells) : Cells :=
  {| status := st; timeoutRef := timeoutRef c |}.

Definition setRef (r : option nat) (c : Cells) : Cells :=
  {| status := status c; timeoutRef := r |}.

(** The callback of the timer: clear the message and forget the handle. *)
Definition expire (c : Cells) : Cells :=
  setRef None (setStatus blank c).

(** Clear the timer the reference holds, if any. *)
Definition forget (w : world Cells) : world Cells :=
  match timeoutRef (cells w) with
  | Some i => write (setRef None) (clearTimeout i w)
  | None => w
  end.

(** [message] is truthy when it is not empty. *)
Definition nonempty (s : string) : bool :=
  match s with
  | EmptyString => false
  | String _ _ => true
  end.

Definition showStatus (timeoutMs : Z) (message : string) (isError : bool)
    (w : world Cells) : world Cells :=
  let w1 := forget w in
  let w2 := write (setStatus {| App.message := message; App.isError := isError |}) w1 in
  if nonempty message then
    let (i, w3) := setTimeout expire timeoutMs w2 in
    write (setRef (Some i)) w3
  else w2.

(** The cleanup of the effect, run when the component unmounts. *)
Definition unmount (w : world Cells) : world Cells := forget w.

(** What can happen to a mounted hook. *)
Inductive happening : Type :=
| Shown (message : string) (isError : bool)
| Passed (d : Z)
| Unmounted.

Definition happen (timeoutMs : Z) (w : world Cells) (x : happening) : world Cells :=
  match x with
  | Shown m e => showStatus timeoutMs m e w
  | Passed d => elapse d w
  | Unmounted => unmount w
  end.

Definition after (timeoutMs : Z) (history : list happening) : world Cells :=
  fold_left (happen timeoutMs) history mounted.

(** The hook holds at most one timer, and its reference names it. *)
Definition tidy (w : world Cells) : Prop :=
  match timeoutRef (cells w) with
  | None => pending w = []
  | Some i =>
      exists d, pending w = [{| handle := i; due := d; callback := expire |}]
  end.

End StatusNotification.

(* ===================================================================== *)
(** ** [showStatus] of [MainApp] and of [AppContent] *)
(* ===================================================================== *)

Module MainStatus.

Import Timers.

Definition blank : App.Status :=
  {| App.message := EmptyString; App.isError := false |}.

Definition mounted : world App.Status := boot blank.

(** [setStatus], then a timer of five seconds that clears the status; the
    handle of the timer is dropped. *)
Definition showStatus (message : string) (isError : bool)
    (w : world App.Status) : world App.Status :=
  snd (setTimeout (fun _ => blank) 5000
         (write (fun _ => {| App.message := message; App.isError := isError |}) w)).

End MainStatus.

(* ===================================================================== *)
(** ** [useAppGlobalLoader] *)
(* ===================================================================== *)

Module GlobalLoader.

Import Timers.

Record State : Type := {
  loading : bool;
  label : string
}.

Record OpenConfig : Type := {
  config_label : string;
  duration : option Z
}.

Definition closed : State := {| loading := false; label := EmptyString |}.

Definition created : world State := boot closed.

(** [open]: the duration defaults to one second. *)
Definition open (config : OpenConfig) (w : world State) : world State :=
  let duration := match duration config with
                  | Some d => d
                  | None => 1000%Z
                  end in
  snd (setTimeout (fun _ => closed) duration
         (write (fun _ => {| loading := true; label := config_label config |}) w)).

Definition close (w : world State) : world State :=
  write (fun _ => closed) w.

End GlobalLoader.

(* ===================================================================== *)
(** ** What a run issued and did, for any signature *)
(* ===================================================================== *)

Module Trace.

Import Js Async.

Section Projections.

Variable Cmd : Type.
Variable reply : Cmd -> Type.
Variable Act : Type.

(** The commands of a run, in the order they were issued. *)
Fixpoint issued (tr : list (event reply Act)) : list Cmd :=
  match tr with
  | [] => []
  | Invoked c _ :: tr' => c :: issued tr'
  | _ :: tr' => issued tr'
  end.

(** The synchronous effects of a run, in order. *)
Fixpoint performed (tr : list (event reply Act)) : list Act :=
  match tr with
  | [] => []
  | Did a :: tr' => a :: performed tr'
  | _ :: tr' => performed tr'
  end.

(** Whether some command of the run was rejected. *)
Fixpoint rejected (tr : list (event reply Act)) : bool :=
  match tr with
  | [] => false
  | Invoked _ r :: tr' => is_rejected r || rejected tr'
  | _ :: tr' => rejected tr'
  end.

End Projections.

Arguments issued {Cmd reply Act} tr.
Arguments performed {Cmd reply Act} tr.
Arguments rejected {Cmd reply Act} tr.

End Trace.

(* ===================================================================== *)
(** ** [useAppInitialization] *)
(* ===================================================================== *)

Module AppInitialization.

Import Js Async.

(** What a detection of [AntigravityPathService] reports. *)
Record Detection : Type := {
  found : bool;
  path : option string
}.

(** The calls the hook awaits: the two detections, [exit], and through
    [refreshBackupList] the commands of the backup list. *)
Inductive command : Type :=
| detectAntigravityPath
| detectExecutable
| exit (code : Z)
| Backup (c : Tauri.command).

Definition reply (c : command) : Type :=
  match c with
  | detectAntigravityPath => Detection
  | detectExecutable => Detection
  | exit _ => unit
  | Backup c' => Tauri.reply c'
  end.

Record State : Type := {
  isDetecting : bool;
  antigravityFound : option bool;
  isPathDialogOpen : bool;
  main : App.State
}.

Definition starting : State :=
  {| isDetecting := true;
     antigravityFound := None;
     isPathDialogOpen := false;
     main := App.initial |}.

Inductive action : Type :=
| setIsDetecting (b : bool)
| setAntigravityFound (b : option bool)
| setIsPathDialogOpen (b : bool)
| Main (a : App.action).

Definition exec (a : action) (s : State) : State :=
  match a with
  | setIsDetecting b =>
      {| isDetecting := b; antigravityFound := antigravityFound s;
         isPathDialogOpen := isPathDialogOpen s; main := main s |}
  | setAntigravityFound b =>
      {| isDetecting := isDetecting s; antigravityFound := b;
         isPathDialogOpen := isPathDialogOpen s; main := main s |}
  | setIsPathDialogOpen b =>
      {| isDetecting := isDetecting s; antigravityFound := antigravityFound s;
         isPathDialogOpen := b; main := main s |}
  | Main a' =>
      {| isDetecting := isDetecting s; antigravityFound := antigravityFound s;
         isPathDialogOpen := isPathDialogOpen s; main := App.exec a' (main s) |}
  end.

Definition job : Type -> Type := task reply action.

(** A function of [useBackupManagement] called from this hook. *)
Fixpoint lift {A : Type} (t : App.job A) : job A :=
  match t with
  | Return a => Return a
  | Throw e => Throw e
  | Await c k => Await (Backup c) (fun r => lift (k r))
  | Sleep ms k => Sleep ms (lift k)
  | Perform a k => Perform (Main a) (lift k)
  end.

Section Hook.

(** The argument of the hook. *)
Variable refreshBackupList : bool -> App.job unit.

(** [refreshBackupList(true).catch(console.error)]: the refresh is started
    and its rejection only logged. *)
Definition handlePathSelected : job unit :=
  perform (setIsPathDialogOpen false) ;;
  perform (setAntigravityFound (Some true)) ;;
  catch (lift (refreshBackupList true)) (fun _ => ret tt).

Definition handlePathDialogCancel : job unit :=
  catch (invoke (exit 0)) (fun _ => ret tt).

Definition detectAndInit : job unit :=
  catch
    (pathInfo <- invoke detectAntigravityPath ;;
     execInfo <- invoke detectExecutable ;;
     let bothFound := found pathInfo && found execInfo in
     if bothFound then
       perform (setAntigravityFound (Some true)) ;;
       lift (refreshBackupList true) ;;
       perform (setIsDetecting false)
     else
       perform (setAntigravityFound (Some false)) ;;
       perform (setIsPathDialogOpen true) ;;
       perform (setIsDetecting false))
    (fun _ =>
       perform (setAntigravityFound (Some false)) ;;
       perform (setIsPathDialogOpen true) ;;
       perform (setIsDetecting false)).

End Hook.

(** Whether both detections resolved and found their target. *)
Definition bothFound (pathInfo execInfo : settled Detection) : bool :=
  match pathInfo, execInfo with
  | Resolved p, Resolved e => found p && found e
  | _, _ => false
  end.

End AppInitialization.

(* ===================================================================== *)
(** ** [AppContent]: the start of the unified application *)
(* ===================================================================== *)

Module UnifiedApp.

Import Js Async.
Import AppInitialization (Detection, found, path).

Inductive command : Type :=
| detectAntigravityPath
| detectExecutable
| exit (code : Z).

Definition reply (c : command) : Type :=
  match c with
  | detectAntigravityPath => Detection
  | detectExecutable => Detection
  | exit _ => unit
  end.

Record State : Type := {
  isDetecting : bool;
  isPathDialogOpen : bool
}.

Definition starting : State :=
  {| isDetecting := true; isPathDialogOpen := false |}.

Inductive action : Type :=
| setIsDetecting (b : bool)
| setIsPathDialogOpen (b : bool).

Definition exec (a : action) (s : State) : State :=
  match a with
  | setIsDetecting b =>
      {| isDetecting := b; isPathDialogOpen := isPathDialogOpen s |}
  | setIsPathDialogOpen b =>
      {| isDetecting := isDetecting s; isPathDialogOpen := b |}
  end.

Definition job : Type -> Type := task reply action.

(** [await Promise.all([a, b])] of two calls: both are issued, and the
    await throws when one of them is rejected. *)
Definition all2 (a b : command) : job (reply a * reply b) :=
  Await a (fun ra =>
  Await b (fun rb =>
    match ra, rb with
    | Resolved x, Resolved y => Return (x, y)
    | Rejected e, _ => Throw e
    | _, Rejected e => Throw e
    end)).

Definition initializeApp : job unit :=
  catch
    (infos <- all2 detectAntigravityPath detectExecutable ;;
     let bothFound := found (fst infos) && found (snd infos) in
     if bothFound then
       perform (setIsDetecting false)
     else
       perform (setIsDetecting false) ;;
       perform (setIsPathDialogOpen true))
    (fun _ =>
       perform (setIsDetecting false) ;;
       perform (setIsPathDialogOpen true)).

Definition handlePathSelected : job unit :=
  perform (setIsPathDialogOpen false) ;;
  initializeApp.

Definition handlePathDialogCancel : job unit :=
  catch (invoke (exit 0)) (fun _ => ret tt).

(** What [AppContent] renders. *)
Inductive screen : Type :=
| DetectingScreen
| PathDialogScreen
| MainScreen.

Definition render (s : State) : screen :=
  if isDetecting s then DetectingScreen
  else if isPathDialogOpen s then PathDialogScreen
  else MainScreen.

End UnifiedApp.

(* ===================================================================== *)
(** ** [AntigravityPathDialog] *)
(* ===================================================================== *)

Module PathDialog.

Import Js Async.

(** The directory and file pickers of the dialog plugin and the calls of
    [AntigravityPathService]. *)
Inductive command : Type :=
| openDataDirectory
| openExecutableFile
| validatePath (path : string)
| validateExecutable (path : string)
| savePath (path : string)
| saveExecutable (path : string).

Definition reply (c : command) : Type :=
  match c with
  | openDataDirectory => option string
  | openExecutableFile => option string
  | validatePath _ => bool
  | validateExecutable _ => bool
  | savePath _ => unit
  | saveExecutable _ => unit
  end.

Record State : Type := {
  dataPath : string;
  isDataPathValid : bool;
  isValidatingData : bool;
  execPath : string;
  isExecPathValid : bool;
  isValidatingExec : bool;
  isSaving : bool;
  errorMessage : string;
  selections : nat
}.

Definition opened : State :=
  {| dataPath := EmptyString; isDataPathValid := false; isValidatingData := false;
     execPath := EmptyString; isExecPathValid := false; isValidatingExec := false;
     isSaving := false; errorMessage := EmptyString; selections := 0 |}.

(** The setters, and the [onPathSelected] callback of the parent. *)
Inductive action : Type :=
| setDataPath (p : string)
| setIsDataPathValid (b : bool)
| setIsValidatingData (b : bool)
| setExecPath (p : string)
| setIsExecPathValid (b : bool)
| setIsValidatingExec (b : bool)
| setIsSaving (b : bool)
| setErrorMessage (m : string)
| onPathSelected.

Definition exec (a : action) (s : State) : State :=
  match a with
  | setDataPath p =>
      {| dataPath := p; isDataPathValid := isDataPathValid s;
         isValidatingData := isValidatingData s; execPath := execPath s;
         isExecPathValid := isExecPathValid s; isValidatingExec := isValidatingExec s;
         isSaving := isSaving s; errorMessage := errorMessage s;
         selections := selections s |}
  | setIsDataPathValid b =>
      {| dataPath := dataPath s; isDataPathValid := b;
         isValidatingData := isValidatingData s; execPath := execPath s;
         isExecPathValid := isExecPathValid s; isValidatingExec := isValidatingExec s;
         isSaving := isSaving s; errorMessage := errorMessage s;
         selections := selections s |}
  | setIsValidatingData b =>
      {| dataPath := dataPath s; isDataPathValid := isDataPathValid s;
         isValidatingData := b; execPath := execPath s;
         isExecPathValid := isExecPathValid s; isValidatingExec := isValidatingExec s;
         isSaving := isSaving s; errorMessage := errorMessage s;
         selections := selections s |}
  | setExecPath p =>
      {| dataPath := dataPath s; isDataPathValid := isDataPathValid s;
         isValidatingData := isValidatingData s; execPath := p;
         isExecPathValid := isExecPathValid s; isValidatingExec := isValidatingExec s;
         isSaving := isSaving s; errorMessage := errorMessage s;
         selections := selections s |}
  | setIsExecPathValid b =>
      {| dataPath := dataPath s; isDataPathValid := isDataPathValid s;
         isValidatingData := isValidatingData s; execPath := execPath s;
         isExecPathValid := b; isValidatingExec := isValidatingExec s;
         isSaving := isSaving s; errorMessage := errorMessage s;
         selections := selections s |}
  | setIsValidatingExec b =>
      {| dataPath := dataPath s; isDataPathValid := isDataPathValid s;
         isValidatingData := isValidatingData s; execPath := execPath s;
         isExecPathValid := isExecPathValid s; isValidatingExec := b;
         isSaving := isSaving s; errorMessage := errorMessage s;
         selections := selections s |}
  | setIsSaving b =>
      {| dataPath := dataPath s; isDataPathValid := isDataPathValid s;
         isValidatingData := isValidatingData s; execPath := execPath s;
         isExecPathValid := isExecPathValid s; isValidatingExec := isValidatingExec s;
         isSaving := b; errorMessage := errorMessage s;
         selections := selections s |}
  | setErrorMessage m =>
      {| dataPath := dataPath s; isDataPathValid := isDataPathValid s;
         isValidatingData := isValidatingData s; execPath := execPath s;
         isExecPathValid := isExecPathValid s; isValidatingExec := isValidatingExec s;
         isSaving := isSaving s; errorMessage := m;
         selections := selections s |}
  | onPathSelected =>
      {| dataPath := dataPath s; isDataPathValid := isDataPathValid s;
         isValidatingData := isValidatingData s; execPath := execPath s;
         isExecPathValid := isExecPathValid s; isValidatingExec := isValidatingExec s;
         isSaving := isSaving s; errorMessage := errorMessage s;
         selections := S (selections s) |}
  end.

Definition job : Type -> Type := task reply action.

(** [result && typeof result === 'string']: a string that is not empty. *)
Definition picked (result : option string) : option string :=
  match result with
  | Some (String a p) => Some (String a p)
  | _ => None
  end.

Definition handleBrowseDataPath : job unit :=
  catch
    (result <- invoke openDataDirectory ;;
     match picked result with
     | Some p =>
         perform (setDataPath p) ;;
         perform (setErrorMessage EmptyString) ;;
         perform (setIsValidatingData true) ;;
         valid <- invoke (validatePath p) ;;
         perform (setIsValidatingData false) ;;
         perform (setIsDataPathValid valid) ;;
         if negb valid then
           perform (setErrorMessage "此目录中未找到 state.vscdb 文件")
         else ret tt
     | None => ret tt
     end)
    (fun error => perform (setErrorMessage ("选择失败: " ++ to_string error))).

Definition handleBrowseExecPath : job unit :=
  catch
    (result <- invoke openExecutableFile ;;
     match picked result with
     | Some p =>
         perform (setExecPath p) ;;
         perform (setErrorMessage EmptyString) ;;
         perform (setIsValidatingExec true) ;;
         valid <- invoke (validateExecutable p) ;;
         perform (setIsValidatingExec false) ;;
         perform (setIsExecPathValid valid) ;;
         if negb valid then
           perform (setErrorMessage "所选文件不是有效的可执行文件")
         else ret tt
     | None => ret tt
     end)
    (fun error => perform (setErrorMessage ("选择失败: " ++ to_string error))).

(** [!s] for a string. *)
Definition empty (s : string) : bool :=
  match s with
  | EmptyString => true
  | String _ _ => false
  end.

(** The handler closes over the cells of the render it was created in. *)
Definition handleSave (s : State) : job unit :=
  if empty (dataPath s) || negb (isDataPathValid s) then
    perform (setErrorMessage "请先选择有效的数据目录")
  else
    catch
      (perform (setIsSaving true) ;;
       invoke (savePath (dataPath s)) ;;
       (if negb (empty (execPath s)) && isExecPathValid s then
          invoke (saveExecutable (execPath s))
        else ret tt) ;;
       perform (setIsSaving false) ;;
       perform onPathSelected)
      (fun error =>
         perform (setIsSaving false) ;;
         perform (setErrorMessage ("保存失败: " ++ to_string error))).

Definition canSave (s : State) : bool :=
  isDataPathValid s && negb (isSaving s).

(** The [disabled] attributes of the two browse buttons and of the save
    button. *)
Definition browseDataDisabled (s : State) : bool := isValidatingData s || isSaving s.

Definition browseExecDisabled (s : State) : bool := isValidatingExec s || isSaving s.

Definition saveDisabled (s : State) : bool := negb (canSave s).

End PathDialog.

(* ===================================================================== *)
(** ** [useAntigravityProcess] *)
(* ===================================================================== *)

Module AntigravityProcess.

Import Js Async.

(** The one call the hook awaits,
    [AntigravityService.backupAndRestartAntigravity].  The service is
    handed [showStatus]; what it reports through it is its own and is not
    part of this hook. *)
Inductive command : Type :=
| AntigravityService_backupAndRestartAntigravity.

Definition reply (c : command) : Type :=
  match c with
  | AntigravityService_backupAndRestartAntigravity => unit
  end.

Record State : Type := {
  isProcessLoading : bool;
  status : App.Status
}.

(** [setTimeout(() => onRefresh(), ms)] is [scheduleRefresh]. *)
Inductive action : Type :=
| setIsProcessLoading (b : bool)
| showStatus (message : string) (isError : bool)
| scheduleRefresh (ms : Z).

Definition exec (a : action) (s : State) : State :=
  match a with
  | setIsProcessLoading b => {| isProcessLoading := b; status := status s |}
  | showStatus m e =>
      {| isProcessLoading := isProcessLoading s;
         status := {| App.message := m; App.isError := e |} |}
  | scheduleRefresh _ => s
  end.

Definition job : Type -> Type := task reply action.

Definition backupAndRestartAntigravity : job unit :=
  finally
    (catch
       (perform (setIsProcessLoading true) ;;
        perform (showStatus "正在备份当前用户并注销..." false) ;;
        invoke AntigravityService_backupAndRestartAntigravity ;;
        perform (scheduleRefresh 1000))
       (fun error => perform (showStatus (message_of error) true)))
    (perform (setIsProcessLoading false)).

End AntigravityProcess.

(* ===================================================================== *)
(** ** [Toolbar]: the handlers of its buttons *)
(* ===================================================================== *)

Module Toolbar.

Import Js Async.

(** [window.prompt], the account and language-server commands, the update
    checker and [addCurrentUser] of the user store. *)
Inductive command : Type :=
| getAccounts
| prompt (text : string)
| language_server_get_user_status (apiKey : string)
| startDownload
| installAndRelaunch
| addCurrentUser.

Definition reply (c : command) : Type :=
  match c with
  | prompt _ => option string
  | _ => unit
  end.

Record State : Type := {
  isTestingLS : bool;
  status : App.Status
}.

Inductive action : Type :=
| setIsTestingLS (b : bool)
| showStatus (message : string) (isError : bool).

Definition exec (a : action) (s : State) : State :=
  match a with
  | setIsTestingLS b => {| isTestingLS := b; status := status s |}
  | showStatus m e =>
      {| isTestingLS := isTestingLS s;
         status := {| App.message := m; App.isError := e |} |}
  end.

Definition job : Type -> Type := task reply action.

Fixpoint statuses (tr : list (event reply action)) : list App.Status :=
  match tr with
  | [] => []
  | Did (showStatus m e) :: tr' =>
      {| App.message := m; App.isError := e |} :: statuses tr'
  | _ :: tr' => statuses tr'
  end.

Section Handlers.

(** [String.prototype.trim]. *)
Variable trim : string -> string.

(** [!apiKey || apiKey.trim() === '']: the key to send, when there is
    one. *)
Definition entered (apiKey : option string) : option string :=
  match apiKey with
  | Some (String a k) =>
      if String.eqb (trim (String a k)) EmptyString then None
      else Some (String a k)
  | _ => None
  end.

(** [window.prompt] blocks and returns what the user typed; it is taken
    here like the awaited calls. *)
Definition handleTestLanguageServer : job unit :=
  perform (setIsTestingLS true) ;;
  invoke getAccounts ;;
  finally
    (catch
       (apiKey <- invoke (prompt "请输入语言服务器 apiKey") ;;
        match entered apiKey with
        | None =>
            perform (showStatus "apiKey 不能为空" true) ;;
            perform (setIsTestingLS false)
        | Some key =>
            invoke (language_server_get_user_status key) ;;
            perform (showStatus "语言服务器调用成功，详情见控制台" false)
        end)
       (fun error =>
          perform (showStatus ("语言服务器调用失败: " ++ message_of error) true)))
    (perform (setIsTestingLS false)).

End Handlers.

Definition handleStartDownload : job unit :=
  catch
    (invoke startDownload ;;
     perform (showStatus "更新包下载完成，点击重启按钮安装" false))
    (fun _ => ret tt).

Definition handleInstallAndRelaunch : job unit :=
  catch
    (perform (showStatus "正在安装更新并重启应用..." false) ;;
     invoke installAndRelaunch)
    (fun _ => ret tt).

(** The click handler of the add-current-user button. *)
Definition handleAddCurrentUser : job unit :=
  catch
    (invoke addCurrentUser ;;
     perform (showStatus "已添加当前用户" false))
    (fun error =>
       perform (showStatus ("添加当前用户失败: " ++ to_string error) true)).

End Toolbar.

(* ===================================================================== *)
(** ** Further concrete hosts and states *)
(* ===================================================================== *)

Module Rehearsal.

Import Js Async.

(** An account that is logged in and carries [null] for its e-mail. *)
Definition anonymous : Tauri.AntigravityCurrentUserInfo :=
  {| Tauri.apiKey := Some "sk-anonymous";
     Tauri.userStatusProtoBinaryBase64 := None;
     Tauri.email := Null |}.

(** A host with that account, which accepts the write. *)
Definition lenient (h : unit) (c : Tauri.command)
  : settled (Tauri.reply c) * unit :=
  (match c as c0 return settled (Tauri.reply c0) with
   | Tauri.list_backups => Resolved []
   | Tauri.get_current_antigravity_info => Resolved (Some anonymous)
   | Tauri.backup_antigravity_current_account _ => Resolved "saved"
   | _ => Rejected (Thrown "not scripted")
   end, h).

(** A path service that picks a directory and then fails to validate
    it. *)
Definition unreadable (h : unit) (c : PathDialog.command)
  : settled (PathDialog.reply c) * unit :=
  (match c as c0 return settled (PathDialog.reply c0) with
   | PathDialog.openDataDirectory => Resolved (Some "/mnt/usb/globalStorage")
   | PathDialog.openExecutableFile => Resolved None
   | PathDialog.validatePath _ => Rejected (Thrown "permission denied")
   | PathDialog.validateExecutable _ => Resolved false
   | PathDialog.savePath _ => Resolved tt
   | PathDialog.saveExecutable _ => Resolved tt
   end, h).

(** The dialog after a first directory was picked and found valid. *)
Definition configured : PathDialog.State :=
  PathDialog.exec (PathDialog.setIsDataPathValid true)
    (PathDialog.exec (PathDialog.setDataPath "/home/user/globalStorage")
       PathDialog.opened).

End Rehearsal.

(* ===================================================================== *)
(** * Runs of composed effect trees *)
(* ===================================================================== *)

Section Composition.

Import Js Async.

Variable Cmd : Type.
Variable reply : Cmd -> Type.
Variable Act : Type.
Variable H : Type.
Variable respond : H -> forall c : Cmd, settled (reply c) * H.
Variable S : Type.
Variable exec : Act -> S -> S.

Lemma outcome_eta {A : Type} (o : outcome reply Act H S A) :
  Outcome (completion o) (ui o) (host o) (trace o) = o.
Proof. destruct o; reflexivity. Qed.

(** Sequencing: the run of [x <- t ;; f x] is the run of [t] continued by
    the run of [f] on its result. *)
Lemma run_bind {A B : Type} (t : task reply Act A) (f : A -> task reply Act B)
    (h : H) (s : S) :
  run respond exec (task_bind t f) h s
  = continued (run respond exec t h s) (fun a => run respond exec (f a)).
Proof.
  revert h s.
  induction t as [a|e|c k IH|ms k IH|a k IH]; intros h s; cbn [task_bind run].
  - unfold continued. cbn. symmetry. apply outcome_eta.
  - reflexivity.
  - destruct (respond h c) as [r h']. rewrite IH.
    unfold continued, logged. cbn.
    destruct (run respond exec (k r) h' s) as [[x|e] u g tr]; reflexivity.
  - rewrite IH. unfold continued, logged. cbn.
    destruct (run respond exec k h s) as [[x|e] u g tr]; reflexivity.
  - rewrite IH. unfold continued, logged. cbn.
    destruct (run respond exec k h (exec a s)) as [[x|e] u g tr]; reflexivity.
Qed.

(** Handling: the run of [try t catch handler] is the run of [t],
    recovered by the run of the handler when [t] was rejected. *)
Lemma run_catch {A : Type} (t : task reply Act A)
    (handler : error -> task reply Act A) (h : H) (s : S) :
  run respond exec (task_catch t handler) h s
  = recovered (run respond exec t h s) (fun e => run respond exec (handler e)).
Proof.
  revert h s.
  induction t as [a|e|c k IH|ms k IH|a k IH]; intros h s; cbn [task_catch run].
  - reflexivity.
  - unfold recovered. cbn. symmetry. apply outcome_eta.
  - destruct (respond h c) as [r h']. rewrite IH.
    unfold recovered, logged. cbn.
    destruct (run respond exec (k r) h' s) as [[x|e] u g tr]; reflexivity.
  - rewrite IH. unfold recovered, logged. cbn.
    destruct (run respond exec k h s) as [[x|e] u g tr]; reflexivity.
  - rewrite IH. unfold recovered, logged. cbn.
    destruct (run respond exec k h (exec a s)) as [[x|e] u g tr]; reflexivity.
Qed.

(** A handler that never throws makes the whole block settle normally. *)
Lemma run_catch_total {A : Type} (t : task reply Act A)
    (handler : error -> task reply Act A) (h : H) (s : S) :
  (forall e h' s', exists a,
      completion (run respond exec (handler e) h' s') = Resolved a) ->
  exists a, completion (run respond exec (task_catch t handler) h s) = Resolved a.
Proof.
  intros Hh. rewrite run_catch. unfold recovered.
  destruct (completion (run respond exec t h s)) as [a|e] eqn:E.
  - exists a. exact E.
  - cbn. apply Hh.
Qed.

End Composition.

(* ===================================================================== *)
(** * Properties of the coordinator *)
(* ===================================================================== *)

Section Coordinator.

Import Js Async Tauri App BackupManagement ManageSection Observe.

(** Any host: a state machine that settles every awaited command. *)
Variable H : Type.
Variable respond : H -> forall c : command, settled (reply c) * H.

(** Take the next answer of the host and follow both ways it can settle. *)
Ltac answer :=
  match goal with
  | |- context [respond ?h ?c] =>
      let r := fresh "r" in
      let h' := fresh "h" in
      let E := fresh "E" in
      destruct (respond h c) as [r h'] eqn:E; destruct r; cbn in *
  end.

Ltac branch_on_account :=
  match goal with
  | |- context [hasValidUserInfo ?i] =>
      let V := fresh "V" in destruct (hasValidUserInfo i) eqn:V; cbn in *
  end.

Ltac trace_run := cbn in *; repeat first [answer | branch_on_account].

(** [autoBackupCurrentUser] never changes the published list. *)
Lemma autoBackup_keeps_snapshot h s :
  backups (ui (run respond exec autoBackupCurrentUser h s)) = backups s.
Proof. trace_run; reflexivity. Qed.

(** C10. [autoBackupCurrentUser] settles normally whatever the host
    answers: it shows one status, flagged as an error exactly when a
    command was rejected, it returns [false] on a rejected read, a rejected
    write and a missing account, and a refresh whose auto-backup returned
    [false] completes with the list of its first read published. *)
Theorem autoBackupCurrentUser_is_total (h : H) (s : State) :
  let o := run respond exec autoBackupCurrentUser h s in
  (exists b, completion o = Resolved b)
  /\ length (statuses (trace o)) = 1
  /\ length (errors (trace o)) = (if any_rejected (trace o) then 1 else 0)
  /\ (any_rejected (trace o) = true -> completion o = Resolved false)
  /\ (forall info h1,
        respond h get_current_antigravity_info = (Resolved info, h1) ->
        hasValidUserInfo info = false ->
        completion o = Resolved false
        /\ statuses (trace o)
           = [{| message := "未检测到已登录的用户"; isError := false |}])
  /\ (forall l h1,
        respond h list_backups = (Resolved l, h1) ->
        completion (run respond exec autoBackupCurrentUser h1
                        (exec (setBackups l) s)) = Resolved false ->
        let o' := run respond exec (refreshBackupList false) h s in
        completion o' = Resolved tt
        /\ backups (ui o') = l
        /\ isInitialLoading (ui o') = false).
Proof.
  cbv zeta. split; [|split; [|split; [|split; [|split]]]].
  - (* the whole body is inside try/catch, and the handler only reports *)
    unfold autoBackupCurrentUser. cbn [catch Exc_task].
    apply run_catch_total. intros e h' s'. eexists. reflexivity.
  - trace_run; reflexivity.
  - trace_run; reflexivity.
  - trace_run; intros; first [reflexivity | discriminate].
  - intros info h1 E V. cbn. rewrite E. cbn. rewrite V. cbn. split; reflexivity.
  - intros l h1 E Hab. cbn. rewrite E. cbn. revert Hab.
    trace_run; intros Hab; try discriminate Hab; repeat split; reflexivity.
Qed.

(** Without a successful list read the published list stays. *)
Lemma published_without_read (tr : log) (before : list string) :
  read_succeeded tr = false -> published tr before = before.
Proof.
  induction tr as [|e tr IH]; [reflexivity|].
  cbn [read_succeeded existsb published].
  destruct (listing e); cbn [orb]; [discriminate|exact IH].
Qed.

(** C5, as amended. Whatever the host answers, an operation of the
    coordinator settles normally; the list it leaves published is the one
    of its last successful list read, and the earlier one when no read
    succeeded; it shows exactly one error status when a command was
    rejected and none otherwise; and its loading flag is reset. *)
Theorem store_failure_semantics (op : operation) (h : H) (s : State) :
  names_a_backup op = true ->
  let o := run respond exec (job_of op) h s in
  completion o = Resolved tt
  /\ backups (ui o) = published (trace o) (backups s)
  /\ (read_succeeded (trace o) = false -> backups (ui o) = backups s)
  /\ length (errors (trace o)) = (if any_rejected (trace o) then 1 else 0)
  /\ busy op (ui o) = false.
Proof.
  intros Hop.
  assert (Hpub : backups (ui (run respond exec (job_of op) h s))
                 = published (trace (run respond exec (job_of op) h s)) (backups s)).
  { destruct op as [skip| |name|].
    - destruct skip; trace_run; reflexivity.
    - trace_run; reflexivity.
    - destruct name as [|a name]; [discriminate Hop|]. trace_run; reflexivity.
    - trace_run; reflexivity. }
  cbv zeta. split; [|split; [exact Hpub|split]].
  - destruct op as [skip| |name|].
    + destruct skip; trace_run; reflexivity.
    + trace_run; reflexivity.
    + destruct name as [|a name]; [discriminate Hop|]. trace_run; reflexivity.
    + trace_run; reflexivity.
  - intros Hnone. rewrite Hpub. apply published_without_read. exact Hnone.
  - destruct op as [skip| |name|].
    + destruct skip; trace_run; split; reflexivity.
    + trace_run; split; reflexivity.
    + destruct name as [|a name]; [discriminate Hop|].
      trace_run; split; reflexivity.
    + trace_run; split; reflexivity.
Qed.

(** C3, as amended. In a refresh with auto-backup in which the write was
    acknowledged, the list is read again after the reply of the write and
    after a fixed delay of [FILE_WRITE_DELAY_MS] = 500 ms. *)
Theorem reread_follows_write_and_fixed_delay (h : H) (s : State) :
  let o := run respond exec (refreshBackupList false) h s in
  write_succeeded (trace o) = true ->
  FILE_WRITE_DELAY_MS = 500%Z
  /\ delayed (trace o) = true
  /\ exists email,
      timeline (trace o)
      = [Call list_backups; Call get_current_antigravity_info;
         Call (backup_antigravity_current_account email);
         Wait FILE_WRITE_DELAY_MS; Call list_backups].
Proof.
  trace_run; intros W; try discriminate W.
  all: repeat split; eexists; reflexivity.
Qed.

(** A refresh that skips the auto-backup reads the list once and does
    nothing else outside the user interface. *)
Lemma refresh_skipping_auto_backup h s :
  timeline (trace (run respond exec (refreshBackupList true) h s))
  = [Call list_backups].
Proof. trace_run; reflexivity. Qed.

(** C9, as amended. A confirmed delete and a confirmed clear-all issue one
    mutating command; when it resolves, a refresh that skips the
    auto-backup follows (one list read, no write, no delay), and when it
    is rejected nothing follows. A delete without a name issues nothing. *)
Theorem destructive_operations_then_refresh (h : H) (s : State)
    (a : ascii) (name : string) :
  let backupName := String a name in
  let deleted := respond h (delete_backup backupName) in
  let cleared := respond h clear_all_backups in
  timeline (trace (run respond exec
                       (confirmDeleteBackup onRefresh (Some backupName)) h s))
  = Call (delete_backup backupName)
    :: (if is_rejected (fst deleted) then []
        else timeline (trace (run respond exec (refreshBackupList true)
                                  (snd deleted) s)))
  /\ timeline (trace (run respond exec (confirmClearAllBackups onRefresh) h s))
     = Call clear_all_backups
       :: (if is_rejected (fst cleared) then []
           else timeline (trace (run respond exec (refreshBackupList true)
                                     (snd cleared) s)))
  /\ (forall h' s',
        timeline (trace (run respond exec (refreshBackupList true) h' s'))
        = [Call list_backups])
  /\ timeline (trace (run respond exec (confirmDeleteBackup onRefresh None) h s)) = []
  /\ timeline (trace (run respond exec
                          (confirmDeleteBackup onRefresh (Some EmptyString)) h s)) = [].
Proof.
  cbv zeta. split; [|split; [|split; [|split]]].
  - trace_run; reflexivity.
  - trace_run; reflexivity.
  - intros h' s'. apply refresh_skipping_auto_backup.
  - reflexivity.
  - reflexivity.
Qed.

(** Parking a task adds one outstanding list read exactly when the task
    waits for one. *)
Lemma outstanding_after_park (t : job unit) (pool : list (job unit)) :
  length (filter fetching (park t pool))
  = length (filter fetching pool) + (if fetching t then 1 else 0).
Proof.
  unfold park. destruct (suspended t) eqn:Hs.
  - rewrite filter_app, length_app. cbn [filter].
    destruct (fetching t); reflexivity.
  - destruct t; try discriminate Hs; cbn [fetching in_flight];
      symmetry; apply Nat.add_0_r.
Qed.

(** C2, as amended. A refresh has no entry guard: whatever the state of
    the coordinator, also while [isRefreshing] is set and other refreshes
    are in flight, a call of [handleRefresh] or of [refreshBackupList]
    issues a list read of its own and leaves it outstanding; nothing is
    joined and nothing is rejected. *)
Theorem refresh_has_no_entry_guard (w : system reply action H State)
    (skipAutoBackup : bool) :
  let pressed := call exec handleRefresh w in
  let refreshed := call exec (refreshBackupList skipAutoBackup) w in
  outstanding_fetches pressed = S (outstanding_fetches w)
  /\ isRefreshing (sys_ui pressed) = true
  /\ sys_log pressed = (sys_log w ++ [Did (setIsRefreshing true)])%list
  /\ outstanding_fetches refreshed = S (outstanding_fetches w)
  /\ sys_ui refreshed = sys_ui w.
Proof.
  cbv zeta. unfold outstanding_fetches.
  destruct skipAutoBackup; cbn -[park];
    rewrite !outstanding_after_park; cbn; rewrite ?app_nil_r;
    repeat split; try reflexivity; lia.
Qed.

(** For any host: a delete that the store rejects shows the rejection as
    the only status, an error, and nothing follows it. *)
Lemma rejected_delete_is_reported (h h1 : H) (s : State)
    (a : ascii) (name : string) (e : error) :
  respond h (delete_backup (String a name)) = (Rejected e, h1) ->
  let o := run respond exec
               (confirmDeleteBackup onRefresh (Some (String a name))) h s in
  statuses (trace o)
  = [{| message := "删除备份失败: " ++ to_string e; isError := true |}]
  /\ timeline (trace o) = [Call (delete_backup (String a name))].
Proof. intros E. cbn. rewrite E. split; reflexivity. Qed.

(** Where a confirmed delete leaves the host. *)
Lemma host_after_delete (h : H) (s : State) (a : ascii) (name : string) :
  host (run respond exec
            (confirmDeleteBackup onRefresh (Some (String a name))) h s)
  = (let (r, h1) := respond h (delete_backup (String a name)) in
     if is_rejected r then h1 else snd (respond h1 list_backups)).
Proof. trace_run; reflexivity. Qed.

(** The clear-all button on an empty list shows an error and issues no
    command. *)
Lemma empty_list_refuses_clear_all (h : H) (s : State) :
  let o := run respond exec (handleClearAllBackups []) h s in
  statuses (trace o)
  = [{| message := "当前没有用户备份可清空"; isError := true |}]
  /\ timeline (trace o) = []
  /\ isClearDialogOpen (ui o) = isClearDialogOpen s.
Proof. repeat split; reflexivity. Qed.

End Coordinator.

Section StoreContract.

Import Js Async Tauri App BackupManagement ManageSection Observe.

Lemma absent_after_delete (name : string) (l : list string)
    (account : option AntigravityCurrentUserInfo) :
  Store.has name {| Store.entries := Store.without name l;
                    Store.live := account |} = false.
Proof.
  unfold Store.has, Store.without. cbn [Store.entries].
  induction l as [|n l IH]; [reflexivity|].
  cbn [filter]. destruct (String.eqb name n) eqn:E; cbn [negb existsb].
  - exact IH.
  - rewrite E. exact IH.
Qed.

Lemma store_delete_present (st : Store.store) (n : string) :
  Store.has n st = true ->
  Store.respond st (delete_backup n)
  = (Resolved tt,
     {| Store.entries := Store.without n (Store.entries st);
        Store.live := Store.live st |}).
Proof. intros E. cbn. rewrite E. reflexivity. Qed.

Lemma store_delete_absent (st : Store.store) (n : string) :
  Store.has n st = false ->
  Store.respond st (delete_backup n)
  = (Rejected (Thrown ("backup not found: " ++ n)), st).
Proof. intros E. cbn. rewrite E. reflexivity. Qed.

(** For any host: a delete that is rejected still settles, and leaves the
    host where the rejection left it. *)
Lemma rejected_delete_settles (H : Type)
    (respond : H -> forall c : command, settled (reply c) * H)
    (h h1 : H) (s : State) (a : ascii) (name : string) (e : error) :
  respond h (delete_backup (String a name)) = (Rejected e, h1) ->
  let o := run respond exec
               (confirmDeleteBackup onRefresh (Some (String a name))) h s in
  completion o = Resolved tt /\ host o = h1.
Proof. intros E. cbn. rewrite E. split; reflexivity. Qed.

(** C6. Under the store contract, the second of two confirmed deletes of
    one name is rejected by the store and shown as an error, the only
    status and no success message; and a clear-all confirmed while the
    store is empty is answered with the count of zero, which is shown as a
    plain status and not as an error: the handler resolves, closes the
    confirmation and publishes the empty list. *)
Theorem delete_absent_is_error_and_clear_empty_reports_zero
    (st : Store.store) (s : State) (a : ascii) (name : string) :
  let backupName := String a name in
  let first := run Store.respond exec
                   (confirmDeleteBackup onRefresh (Some backupName)) st s in
  let second := run Store.respond exec
                    (confirmDeleteBackup onRefresh (Some backupName))
                    (host first) (ui first) in
  let emptied := {| Store.entries := []; Store.live := Store.live st |} in
  let cleared := run Store.respond exec (confirmClearAllBackups onRefresh)
                     emptied s in
  fst (Store.respond (host first) (delete_backup backupName))
  = Rejected (Thrown ("backup not found: " ++ backupName))
  /\ statuses (trace second)
     = [{| message := "删除备份失败: backup not found: " ++ backupName;
           isError := true |}]
  /\ timeline (trace second) = [Call (delete_backup backupName)]
  /\ host second = host first
  /\ completion second = Resolved tt
  /\ fst (Store.respond emptied clear_all_backups) = Resolved "0"
  /\ statuses (trace cleared)
     = [{| message := "0"; isError := false |};
        {| message := "刷新成功"; isError := false |}]
  /\ errors (trace cleared) = []
  /\ completion cleared = Resolved tt
  /\ isClearDialogOpen (ui cleared) = false
  /\ isClearing (ui cleared) = false
  /\ backups (ui cleared) = []
  /\ host cleared = emptied.
Proof.
  cbv zeta.
  set (n := String a name).
  set (first := run Store.respond exec (confirmDeleteBackup onRefresh (Some n)) st s).
  assert (Habsent : Store.has n (host first) = false).
  { subst first n. rewrite host_after_delete.
    destruct (Store.has (String a name) st) eqn:E.
    - rewrite (store_delete_present _ _ E).
      cbn [is_rejected Store.respond snd]. apply absent_after_delete.
    - rewrite (store_delete_absent _ _ E). exact E. }
  pose proof (store_delete_absent _ _ Habsent) as Hreply.
  pose proof (rejected_delete_is_reported _ Store.respond (host first) (host first)
                (ui first) a name _ Hreply) as [Hst Htl].
  pose proof (rejected_delete_settles _ Store.respond (host first) (host first)
                (ui first) a name _ Hreply) as [Hdone Hhost].
  split; [rewrite Hreply; reflexivity|].
  split; [exact Hst|]. split; [exact Htl|].
  split; [exact Hhost|]. split; [exact Hdone|].
  repeat split; reflexivity.
Qed.

End StoreContract.

(* ===================================================================== *)
(** * Properties of the export and import flows *)
(* ===================================================================== *)

Section Flows.

Import Js Async Tauri App ConfigManagerHook.

Variable H : Type.
Variable respond : H -> forall c : command, settled (reply c) * H.

(** The password policy of the configuration manager. *)
Variable policy : string -> PasswordValidation.

Ltac settle :=
  match goal with
  | |- context [respond ?h ?c] =>
      let r := fresh "r" in
      let h' := fresh "h" in
      let E := fresh "E" in
      destruct (respond h c) as [r h'] eqn:E; destruct r; cbn in *
  end.

(** C7. When the manager reports that there is nothing to export, the
    export flow shows one error status, asks the host nothing else and
    opens no password dialog; a dialog is opened only after the manager
    reported exportable data. *)
Theorem export_without_data_never_prompts (h : H) (s : State) :
  let o := run respond exec_flow (exportConfig policy) h s in
  (fst (respond h hasExportableData) = Resolved false ->
     prompts (trace o) = []
     /\ flow_statuses (trace o)
        = [{| message := "没有找到任何用户信息，无法导出配置文件"; isError := true |}]
     /\ flow_commands (trace o) = [hasExportableData]
     /\ passwordDialogOpen (ui o) = passwordDialogOpen s
     /\ completion o = Resolved tt)
  /\ (prompts (trace o) <> [] -> fst (respond h hasExportableData) = Resolved true)
  /\ (fst (respond h hasExportableData) = Resolved true ->
        length (prompts (trace o)) = 1 /\ flow_statuses (trace o) = []).
Proof.
  cbn. settle.
  - destruct a; cbn; repeat split; intros; try reflexivity; try discriminate;
      try congruence.
  - repeat split; intros; try discriminate; congruence.
Qed.

(** C8. The dialog of the export flow requires confirmation, the dialog of
    the import flow does not, and both validate with the policy of the
    configuration manager; so the export dialog submits only a valid
    password entered twice alike, and the import dialog submits every
    valid password. *)
Theorem export_confirms_and_import_does_not (h : H) (s : State) :
  let exported := run respond exec_flow (exportConfig policy) h s in
  let imported := run respond exec_flow (importConfig policy) h s in
  (forall config, In config (prompts (trace exported)) ->
     requireConfirmation config = true
     /\ validatePassword config = policy
     /\ forall password confirmation,
         PasswordDialog.submit config password confirmation
         = if isValid (policy password) && String.eqb password confirmation
           then Some (onSubmit config password) else None)
  /\ (forall config, In config (prompts (trace imported)) ->
     requireConfirmation config = false
     /\ validatePassword config = policy
     /\ forall password confirmation,
         PasswordDialog.submit config password confirmation
         = if isValid (policy password)
           then Some (onSubmit config password) else None)
  /\ (fst (respond h hasExportableData) = Resolved true ->
        length (prompts (trace exported)) = 1)
  /\ (forall result, fst (respond h importEncryptedConfig) = Resolved result ->
        import_success result = true ->
        length (prompts (trace imported)) = 1).
Proof.
  cbv zeta. split; [|split; [|split]].
  - cbn. settle; try (intros ? []).
    destruct a; cbn; intros config Hin; [|destruct Hin].
    destruct Hin as [<-|[]]. cbn. repeat split.
    intros password confirmation. unfold PasswordDialog.submit. cbn.
    destruct (isValid (policy password)), (String.eqb password confirmation);
      reflexivity.
  - cbn. settle; try (intros ? []).
    destruct (import_success a); cbn; intros config Hin; [|destruct Hin].
    destruct Hin as [<-|[]]. cbn. repeat split.
    intros password confirmation. unfold PasswordDialog.submit. cbn.
    destruct (isValid (policy password)); reflexivity.
  - cbn. settle; intros E'; try discriminate E'.
    injection E' as ->. reflexivity.
  - intros result. cbn. settle; intros E' Hs; try discriminate E'.
    injection E' as ->. rewrite Hs. reflexivity.
Qed.

(** Whatever failure the manager returns, the import flow shows its
    message as it is, once, as an error. *)
Lemma import_failure_is_passed_through (h h1 : H) (s : State)
    (result : ImportResult) (password : string) (failure : DecryptResult) :
  respond h (Tauri.decryptConfigData (encryptedData result) password)
  = (Resolved failure, h1) ->
  decrypt_success failure = false ->
  let o := run respond exec (importOnSubmit result password) h s in
  statuses (trace o)
  = [{| message := "正在解密配置文件..."; isError := false |};
     {| message := decrypt_message failure; isError := true |}]
  /\ isImporting (ui o) = false
  /\ completion o = Resolved tt.
Proof.
  intros E F. cbn. rewrite E. cbn. rewrite F. cbn. repeat split.
Qed.

End Flows.

(* ===================================================================== *)
(** * Properties of the bundle codec *)
(* ===================================================================== *)

Section WireFormat.

Import Bundle Wire.
Local Open Scope list_scope.

Lemma to_N_byte_of_N n : Byte.to_N (byte_of_N n) = (n mod 256)%N.
Proof.
  unfold byte_of_N.
  destruct (Byte.of_N (n mod 256)) as [b|] eqn:E.
  - now apply Byte.to_of_N.
  - apply Byte.of_N_None_iff in E.
    pose proof (N.mod_upper_bound n 256). lia.
Qed.

Lemma continuation_byte n :
  let b := (128 + n mod 128)%N in
  (b mod 256 = b /\ (b <? 128) = false /\ b - 128 + 128 * (n / 128) = n)%N.
Proof.
  intros b. subst b.
  pose proof (N.div_mod n 128) as Hdm.
  assert (Hm : (n mod 128 < 128)%N) by (apply N.mod_upper_bound; lia).
  remember (n mod 128)%N as r. remember (n / 128)%N as q.
  repeat split.
  - apply N.mod_small. lia.
  - apply N.ltb_ge. lia.
  - lia.
Qed.

Lemma get_put_N n rest : get_N (put_N n ++ rest) = Some (n, rest).
Proof.
  funelim (put_N n); cbn [get_N app]; rewrite to_N_byte_of_N.
  - pose proof (proj1 (N.ltb_lt _ _) e) as Hlt.
    rewrite N.mod_small by lia.
    rewrite e. reflexivity.
  - destruct (continuation_byte n) as (Hb & Hc & Hn).
    rewrite Hb, Hc, H, Hn. reflexivity.
Qed.

Lemma bind_parser {A B : Type} (p : parser A) (f : A -> parser B) l a l' :
  p l = Some (a, l') -> (x <- p ;; f x) l = f a l'.
Proof. intros Hp. cbn. rewrite Hp. reflexivity. Qed.

Ltac parsed lem := erewrite bind_parser by apply lem; cbv beta.

Lemma get_byte_cons b rest : get_byte (b :: rest) = Some (b, rest).
Proof. reflexivity. Qed.

Lemma take_app (l rest : bytes) : take (length l) (l ++ rest) = Some (l, rest).
Proof.
  unfold take. rewrite length_app.
  replace (Nat.ltb (length l + length rest) (length l)) with false
    by (symmetry; apply Nat.ltb_ge; lia).
  rewrite firstn_app, skipn_app, firstn_all, skipn_all, Nat.sub_diag.
  cbn. rewrite app_nil_r. reflexivity.
Qed.

Lemma get_put_bytes l rest : get_bytes (put_bytes l ++ rest) = Some (l, rest).
Proof.
  unfold get_bytes, put_bytes. rewrite <- app_assoc.
  parsed get_put_N.
  rewrite Nat2N.id. apply take_app.
Qed.

Lemma get_put_string s rest : get_string (put_string s ++ rest) = Some (s, rest).
Proof.
  unfold get_string, put_string.
  parsed get_put_bytes.
  cbn. rewrite string_of_list_byte_of_string. reflexivity.
Qed.

Lemma get_put_option_string o rest :
  get_option_string (put_option_string o ++ rest) = Some (o, rest).
Proof.
  destruct o as [s|]; unfold get_option_string, put_option_string.
  - cbn [app]. parsed get_byte_cons.
    cbn [Byte.to_N]. parsed get_put_string. reflexivity.
  - reflexivity.
Qed.

Lemma get_put_Z z rest : get_Z (put_Z z ++ rest) = Some (z, rest).
Proof.
  unfold get_Z, put_Z. destruct (Z.ltb_spec z 0); cbn [app].
  - parsed get_byte_cons.
    parsed get_put_N.
    cbn. f_equal. f_equal. lia.
  - parsed get_byte_cons.
    parsed get_put_N.
    cbn. f_equal. f_equal. lia.
Qed.

Lemma get_put_record r rest : get_record (put_record r ++ rest) = Some (r, rest).
Proof.
  unfold get_record, put_record. rewrite <- !app_assoc.
  parsed get_put_string.
  parsed get_put_bytes.
  parsed get_put_option_string.
  destruct r; reflexivity.
Qed.

Lemma get_put_record_list rs rest :
  get_records (length rs) (concat (map put_record rs) ++ rest) = Some (rs, rest).
Proof.
  induction rs as [|r rs IH]; [reflexivity|].
  cbn [length map concat get_records]. rewrite <- app_assoc.
  parsed get_put_record.
  parsed IH. reflexivity.
Qed.

Lemma deserialize_serialize B : deserialize (serialize B) = Some B.
Proof.
  unfold deserialize, get_bundle, serialize, put_records.
  parsed get_put_N.
  parsed get_put_Z.
  parsed get_put_N.
  rewrite Nat2N.id.
  rewrite <- (app_nil_r (concat _)).
  parsed get_put_record_list.
  destruct B; reflexivity.
Qed.

End WireFormat.

Section CodecProperties.

Import Bundle Wire Codec.

Context {prim : Primitives}.

(** C1. Decoding, under the same password, the container that [encode]
    produced gives back the bundle: every record in order, with its
    identifier, its payload byte for byte and its metadata, and the version
    and the timestamp of the bundle; whatever salt and nonce were drawn. *)
Theorem codec_round_trip (B : CredentialBundle) (P : string)
    (fresh_salt fresh_nonce : bytes) :
  decode (encode B P fresh_salt fresh_nonce) P = inr B.
Proof.
  unfold decode, encode. cbn [format_version salt nonce sealed].
  rewrite N.ltb_irrefl, unseal_seal, deserialize_serialize. reflexivity.
Qed.

End CodecProperties.

Section ImportFailure.

Import Js Async Tauri App ConfigManagerHook Bundle Codec.

Context {prim : Primitives}.

Variable H : Type.
Variable respond : H -> forall c : command, settled (reply c) * H.

(** C4. When [decode] fails to authenticate the container, for a wrong
    password and for a damaged file alike, the import flow shows after its
    progress note exactly one error status, the generic message, and
    resets its loading flag. *)
Theorem import_authentication_failure_is_generic (h h1 : H) (s : State)
    (result : ImportResult) (C : EncryptedContainer) (password : string) :
  encryptedData result = Some C ->
  decode C password = inl AuthenticationFailed ->
  respond h (Tauri.decryptConfigData (Some C) password)
  = (Resolved (ConfigManager.decryptConfigData (Some C) password), h1) ->
  let o := run respond exec (importOnSubmit result password) h s in
  statuses (trace o)
  = [{| message := "正在解密配置文件..."; isError := false |};
     {| message := ConfigManager.AUTH_FAILED_MESSAGE; isError := true |}]
  /\ errors (trace o)
     = [{| message := ConfigManager.AUTH_FAILED_MESSAGE; isError := true |}]
  /\ isImporting (ui o) = false
  /\ completion o = Resolved tt.
Proof.
  intros Hdata Hdecode Hanswer.
  cbn. rewrite Hdata, Hanswer.
  unfold ConfigManager.decryptConfigData. rewrite Hdecode.
  cbn. repeat split.
Qed.

End ImportFailure.

(** C4 at a concrete import: the container exported under one password,
    opened with another. *)
Lemma import_authentication_failure_is_generic_witness :
  let o := Async.run Desk.respond App.exec
             (ConfigManagerHook.importOnSubmit Desk.picked "guess") tt App.initial in
  App.statuses (Async.trace o)
  = [{| App.message := "正在解密配置文件..."; App.isError := false |};
     {| App.message := ConfigManager.AUTH_FAILED_MESSAGE; App.isError := true |}]
  /\ App.errors (Async.trace o)
     = [{| App.message := ConfigManager.AUTH_FAILED_MESSAGE; App.isError := true |}]
  /\ App.isImporting (Async.ui o) = false
  /\ Async.completion o = Js.Resolved tt.
Proof.
  apply (import_authentication_failure_is_generic (prim := Toy.toy)
           unit Desk.respond tt tt App.initial Desk.picked Desk.exported "guess").
  - reflexivity.
  - vm_compute. reflexivity.
  - reflexivity.
Defined.

(* ===================================================================== *)
(** * Concrete runs *)
(* ===================================================================== *)

Section Runs.

Import Js Async Tauri App BackupManagement ManageSection Observe Scenario.

(** C2 fails as stated. Two presses of the refresh button, the second
    while the first is in flight, leave two list reads outstanding;
    delivered in turn, the two sequences run interleaved against the
    store. *)
Lemma two_refreshes_run_two_fetch_sequences :
  let twice := call exec handleRefresh (call exec handleRefresh idle) in
  let finished :=
    deliver_all Store.respond exec [0; 0; 0; 0; 0; 0; 0; 0; 0; 0]%nat twice in
  outstanding_fetches twice = 2
  /\ map in_flight (sys_pool twice) = [Some list_backups; Some list_backups]
  /\ sys_pool finished = []
  /\ commands (sys_log finished)
     = [list_backups; list_backups;
        get_current_antigravity_info; get_current_antigravity_info;
        backup_antigravity_current_account (Str "alice@example.com");
        backup_antigravity_current_account (Str "alice@example.com");
        list_backups; list_backups].
Proof. repeat split; reflexivity. Qed.

(** C3 fails as stated. A refresh with auto-backup against the store: the
    write is acknowledged, and the list is read again after a timer of
    500 ms. *)
Lemma refresh_sleeps_before_reading_again :
  let o := run Store.respond exec (refreshBackupList false) home initial in
  write_succeeded (trace o) = true
  /\ delayed (trace o) = true
  /\ timeline (trace o)
     = [Call list_backups; Call get_current_antigravity_info;
        Call (backup_antigravity_current_account (Str "alice@example.com"));
        Wait 500; Call list_backups].
Proof. repeat split; reflexivity. Qed.

(** The amended C3 at the same run. *)
Lemma reread_follows_write_and_fixed_delay_witness :
  let o := run Store.respond exec (refreshBackupList false) home initial in
  FILE_WRITE_DELAY_MS = 500%Z
  /\ delayed (trace o) = true
  /\ exists email,
      timeline (trace o)
      = [Call list_backups; Call get_current_antigravity_info;
         Call (backup_antigravity_current_account email);
         Wait FILE_WRITE_DELAY_MS; Call list_backups].
Proof.
  apply (reread_follows_write_and_fixed_delay Store.store Store.respond home initial).
  reflexivity.
Defined.

(** C5 fails as stated. A refresh whose second list read is rejected: the
    list shown before the refresh is replaced by the first read, and two
    statuses are shown, the note of the auto-backup and the error. *)
Lemma failed_reread_replaces_snapshot :
  let o := run flaky exec (refreshBackupList false) 0%nat stale in
  any_rejected (trace o) = true
  /\ backups stale = ["old@example.com"]
  /\ backups (ui o) = ["alice@example.com"]
  /\ statuses (trace o)
     = [{| message := "已自动备份当前用户: alice@example.com"; isError := false |};
        {| message := "获取备份列表失败: disk busy"; isError := true |}].
Proof. repeat split; reflexivity. Qed.

(** The amended C5 at the same run. *)
Lemma store_failure_semantics_witness :
  let o := run flaky exec (job_of (Refresh false)) 0%nat stale in
  completion o = Resolved tt
  /\ backups (ui o) = published (trace o) (backups stale)
  /\ (read_succeeded (trace o) = false -> backups (ui o) = backups stale)
  /\ length (errors (trace o)) = (if any_rejected (trace o) then 1 else 0)
  /\ busy (Refresh false) (ui o) = false.
Proof.
  apply (store_failure_semantics nat flaky (Refresh false) 0%nat stale).
  reflexivity.
Defined.

(** C6 at the store of one backup: the second delete of the same name is
    an error, and a clear-all confirmed at the empty store shows the count
    of zero. *)
Lemma second_delete_fails_and_empty_clear_does_not :
  let first := run Store.respond exec
                   (confirmDeleteBackup onRefresh (Some "bob@example.com"))
                   home initial in
  let second := run Store.respond exec
                    (confirmDeleteBackup onRefresh (Some "bob@example.com"))
                    (host first) (ui first) in
  let cleared := run Store.respond exec (confirmClearAllBackups onRefresh)
                     empty_store stale in
  errors (trace first) = []
  /\ statuses (trace second)
     = [{| message := "删除备份失败: backup not found: bob@example.com";
           isError := true |}]
  /\ statuses (trace cleared)
     = [{| message := "0"; isError := false |};
        {| message := "刷新成功"; isError := false |}]
  /\ backups (ui cleared) = [].
Proof. repeat split; reflexivity. Qed.

(** C9 fails as stated. A delete that the host rejects is followed by no
    refresh. *)
Lemma rejected_delete_is_not_followed_by_refresh :
  let o := run offline exec
               (confirmDeleteBackup onRefresh (Some "bob@example.com")) tt initial in
  timeline (trace o) = [Call (delete_backup "bob@example.com")]
  /\ statuses (trace o)
     = [{| message := "删除备份失败: offline"; isError := true |}].
Proof. repeat split; reflexivity. Qed.

(** A refresh while the host is not reachable: the list stays, one error
    is shown and the loading flag is reset. *)
Example refresh_while_offline :
  let o := run offline exec (refreshBackupList false) tt stale in
  completion o = Resolved tt
  /\ backups (ui o) = ["old@example.com"]
  /\ statuses (trace o)
     = [{| message := "获取备份列表失败: offline"; isError := true |}]
  /\ isInitialLoading (ui o) = false.
Proof. repeat split; reflexivity. Qed.

(** An auto-backup with no account logged in, and the refresh around it. *)
Example auto_backup_without_account :
  let o := run Store.respond exec (refreshBackupList false) empty_store stale in
  completion o = Resolved tt
  /\ backups (ui o) = []
  /\ statuses (trace o)
     = [{| message := "未检测到已登录的用户"; isError := false |}].
Proof. repeat split; reflexivity. Qed.

End Runs.

Section CodecRuns.

Import Bundle Codec.

(** The scenario of the specification: two accounts exported under a
    password decode under it to the same two records. *)
Example export_then_import_two_accounts :
  decode (prim := Toy.toy) Desk.exported "Str0ngPass!" = inr Desk.accounts.
Proof. vm_compute. reflexivity. Qed.

(** A wrong password and a damaged box fail in the same way. *)
Example wrong_password_and_damage_fail_alike :
  decode (prim := Toy.toy) Desk.exported "guess" = inl AuthenticationFailed
  /\ decode (prim := Toy.toy) Desk.damaged "Str0ngPass!" = inl AuthenticationFailed.
Proof. split; vm_compute; reflexivity. Qed.

End CodecRuns.

(** C1 with the toy cipher and the two accounts of the desk. *)
Lemma codec_round_trip_witness :
  Codec.decode (prim := Toy.toy)
    (Codec.encode (prim := Toy.toy) Desk.accounts "Str0ngPass!"
       [Byte.x01; Byte.x02] [Byte.x09])
    "Str0ngPass!"
  = inr Desk.accounts.
Proof. apply (codec_round_trip (prim := Toy.toy)). Defined.

Section FlowRuns.

Import Js Async Tauri App BackupManagement ConfigManagerHook Scenario.

(** C7 at a host with nothing to export. *)
Lemma export_without_data_never_prompts_witness :
  let o := run Desk.respond exec_flow (exportConfig Desk.policy) tt initial in
  prompts (trace o) = []
  /\ flow_statuses (trace o)
     = [{| message := "没有找到任何用户信息，无法导出配置文件"; isError := true |}]
  /\ flow_commands (trace o) = [hasExportableData]
  /\ passwordDialogOpen (ui o) = passwordDialogOpen initial
  /\ completion o = Resolved tt.
Proof.
  apply (proj1 (export_without_data_never_prompts unit Desk.respond Desk.policy
                  tt initial)).
  reflexivity.
Defined.

(** C8: each flow opens its dialog, the export at a store with a backup,
    the import at the desk. *)
Lemma export_confirms_and_import_does_not_witness :
  length (prompts (trace (run Store.respond exec_flow
                              (exportConfig Desk.policy) home initial))) = 1
  /\ length (prompts (trace (run Desk.respond exec_flow
                                 (importConfig Desk.policy) tt initial))) = 1.
Proof.
  split.
  - apply (proj1 (proj2 (proj2 (export_confirms_and_import_does_not
                                  Store.store Store.respond Desk.policy home initial)))).
    reflexivity.
  - apply (proj2 (proj2 (proj2 (export_confirms_and_import_does_not
                                  unit Desk.respond Desk.policy tt initial)))
             Desk.picked); reflexivity.
Defined.

(** C10 at a store where nobody is logged in. *)
Lemma autoBackupCurrentUser_is_total_witness :
  let o := run Store.respond exec autoBackupCurrentUser empty_store initial in
  completion o = Resolved false
  /\ statuses (trace o)
     = [{| message := "未检测到已登录的用户"; isError := false |}].
Proof.
  apply (proj1 (proj2 (proj2 (proj2 (proj2
           (autoBackupCurrentUser_is_total Store.store Store.respond
              empty_store initial))))) None empty_store);
    reflexivity.
Defined.

(** The dialogs the two flows open, and what their submit does: the export
    dialog refuses a confirmation that differs like a password that is too
    short, the import dialog takes one entry. *)
Example dialogs_of_export_and_import :
  let exporting := prompts (trace (run Store.respond exec_flow
                                       (exportConfig Desk.policy) home initial)) in
  let importing := prompts (trace (run Desk.respond exec_flow
                                       (importConfig Desk.policy) tt initial)) in
  map requireConfirmation exporting = [true]
  /\ map requireConfirmation importing = [false]
  /\ map (fun config => PasswordDialog.submit config "Str0ngPass!" "Str0ngPass?")
         exporting = [None]
  /\ map (fun config => PasswordDialog.submit config "short" "short")
         exporting = [None]
  /\ map (fun config =>
            match PasswordDialog.submit config "Str0ngPass!" EmptyString with
            | Some submitted => statuses (trace (run Desk.respond exec submitted tt initial))
            | None => []
            end) importing
     = [[{| message := "正在解密配置文件..."; isError := false |};
         {| message := "配置文件导入成功 (版本: 1)"; isError := false |}]].
Proof. repeat split; vm_compute; reflexivity. Qed.

End FlowRuns.

(* ===================================================================== *)
(** * Further properties of the management section and the refresh *)
(* ===================================================================== *)

Section Management.

Import Js Async Tauri App BackupManagement ManageSection Observe Watch.

Variable H : Type.
Variable respond : H -> forall c : command, settled (reply c) * H.

Ltac reply_of_host :=
  match goal with
  | |- context [respond ?h ?c] =>
      let r := fresh "r" in
      let h' := fresh "h" in
      let E := fresh "E" in
      destruct (respond h c) as [r h'] eqn:E; destruct r; cbn in *
  end.

Ltac account_or_not :=
  match goal with
  | |- context [hasValidUserInfo ?i] =>
      let V := fresh "V" in destruct (hasValidUserInfo i) eqn:V; cbn in *
  end.

Ltac follow := cbn in *; repeat first [reply_of_host | account_or_not].

(** X1. Switching the account issues the switch command and nothing else:
    no list read and no refresh follow, the published list stays, the
    switching marker is cleared, and one status is shown, the success note
    or the rejection as an error. *)
Theorem switch_account_only_switches (h : H) (s : State) (backupName : string) :
  let o := run respond exec (handleSwitchAccount backupName) h s in
  completion o = Resolved tt
  /\ timeline (trace o) = [Call (switch_to_antigravity_account backupName)]
  /\ statuses (trace o)
     = [match fst (respond h (switch_to_antigravity_account backupName)) with
        | Resolved _ =>
            {| message := "已切换到用户: " ++ backupName; isError := false |}
        | Rejected e =>
            {| message := "切换用户失败: " ++ to_string e; isError := true |}
        end]
  /\ backups (ui o) = backups s
  /\ switchingAccount (ui o) = None.
Proof. follow; repeat split; reflexivity. Qed.

(** X2. Asking to delete a backup and confirming: asking calls no command;
    after a confirmed delete that the store accepted the dialog is closed
    and the name forgotten; after one that the store rejected the dialog
    stays open on the same name, so confirming again retries the same
    delete; and with an empty name the dialog opens but confirming does
    nothing. *)
Theorem delete_dialog_closes_only_on_success (h : H) (s : State)
    (a : ascii) (name : string) :
  let backupName := String a name in
  let asked := run respond exec (handleDeleteBackup backupName) h s in
  let o := run respond exec
               (confirmDeleteBackup onRefresh (backupToDelete (ui asked)))
               (host asked) (ui asked) in
  let idle := run respond exec (handleDeleteBackup EmptyString) h s in
  timeline (trace asked) = []
  /\ deleteDialogOpen (ui asked) = true
  /\ (if is_rejected (fst (respond h (delete_backup backupName)))
      then deleteDialogOpen (ui o) = true
           /\ backupToDelete (ui o) = Some backupName
           /\ hd_error (commands (trace (run respond exec
                  (confirmDeleteBackup onRefresh (backupToDelete (ui o)))
                  (host o) (ui o))))
              = Some (delete_backup backupName)
      else deleteDialogOpen (ui o) = false
           /\ backupToDelete (ui o) = None)
  /\ isDeleting (ui o) = false
  /\ deleteDialogOpen (ui idle) = true
  /\ trace (run respond exec
                (confirmDeleteBackup onRefresh (backupToDelete (ui idle)))
                (host idle) (ui idle)) = [].
Proof.
  cbv zeta. split; [reflexivity|]. split; [reflexivity|].
  split; [|split; [|split; reflexivity]].
  - cbn. reply_of_host.
    + follow; split; reflexivity.
    + repeat split; try reflexivity. follow; reflexivity.
  - follow; reflexivity.
Qed.

(** X3. The clear-all button with backups listed opens the confirmation
    and does nothing else; a confirmed clear-all closes the confirmation
    when the store accepted it and leaves it open, with the rejection
    shown as an error, when the store rejected it; the clearing flag is
    reset in both cases. *)
Theorem clear_dialog_closes_only_on_success (h : H) (s : State)
    (first : string) (others : list string) :
  let asked := run respond exec (handleClearAllBackups (first :: others)) h s in
  let o := run respond exec (confirmClearAllBackups onRefresh)
               (host asked) (ui asked) in
  trace asked = [Did (setIsClearDialogOpen true)]
  /\ isClearDialogOpen (ui asked) = true
  /\ match fst (respond h clear_all_backups) with
     | Resolved result =>
         isClearDialogOpen (ui o) = false
         /\ hd_error (statuses (trace o))
            = Some {| message := result; isError := false |}
     | Rejected e =>
         isClearDialogOpen (ui o) = true
         /\ statuses (trace o)
            = [{| message := "清空备份失败: " ++ to_string e; isError := true |}]
     end
  /\ isClearing (ui o) = false
  /\ completion o = Resolved tt.
Proof.
  cbv zeta. split; [reflexivity|]. split; [reflexivity|].
  follow; repeat split; reflexivity.
Qed.

(** X4. The refresh button is [refreshBackupList(false)] between setting
    and clearing [isRefreshing], and nothing more: the handler of the
    button for a failed refresh is never entered, so the status
    [刷新失败] is never shown. *)
Theorem refresh_button_wraps_refresh (h : H) (s : State) :
  let pressed := run respond exec handleRefresh h s in
  let inner := run respond exec (refreshBackupList false) h
                   (exec (setIsRefreshing true) s) in
  trace pressed
  = (Did (setIsRefreshing true) :: trace inner ++ [Did (setIsRefreshing false)])%list
  /\ statuses (trace pressed) = statuses (trace inner)
  /\ host pressed = host inner
  /\ ui pressed = exec (setIsRefreshing false) (ui inner)
  /\ completion pressed = Resolved tt.
Proof. follow; repeat split; reflexivity. Qed.

(** X5. When the auto-backup of a refresh backs nothing up, the refresh
    shows no status of its own: what the auto-backup reported, its error
    or its note that nobody is logged in, is what stays displayed. *)
Theorem refresh_keeps_the_note_of_auto_backup (h h1 : H) (s : State)
    (l : list string) :
  respond h list_backups = (Resolved l, h1) ->
  let backed := run respond exec autoBackupCurrentUser h1
                    (exec (setBackups l) s) in
  completion backed = Resolved false ->
  let o := run respond exec (refreshBackupList false) h s in
  statuses (trace o) = statuses (trace backed)
  /\ status (ui o) = status (ui backed)
  /\ timeline (trace o) = Call list_backups :: timeline (trace backed).
Proof.
  intros E. cbn. rewrite E. cbn.
  follow; intros Hb; try discriminate Hb; repeat split; reflexivity.
Qed.

(** X6. The auto-backup writes only for an account that carries an API key
    or a user status, once, with the [email] field of that account as it
    was read, be it a string, [null] or left out; otherwise it only reads.
    When it returns [true] its one status names that same field as a
    template literal prints it, so [null] for a [null] e-mail.  An account
    counts when one of the two fields is present and not empty. *)
Theorem auto_backup_writes_only_for_an_account (h : H) (s : State) :
  let o := run respond exec autoBackupCurrentUser h s in
  commands (trace o)
  = match fst (respond h get_current_antigravity_info) with
    | Resolved currentInfo =>
        if hasValidUserInfo currentInfo
        then [get_current_antigravity_info;
              backup_antigravity_current_account (emailOf currentInfo)]
        else [get_current_antigravity_info]
    | Rejected _ => [get_current_antigravity_info]
    end
  /\ (completion o = Resolved true ->
      exists currentInfo,
        fst (respond h get_current_antigravity_info) = Resolved currentInfo
        /\ hasValidUserInfo currentInfo = true
        /\ statuses (trace o)
           = [{| message := "已自动备份当前用户: " ++ interpolate (emailOf currentInfo);
                 isError := false |}])
  /\ (forall info,
        hasValidUserInfo (Some info) = true
        <-> (exists c k, apiKey info = Some (String c k))
            \/ (exists c k, userStatusProtoBinaryBase64 info = Some (String c k))).
Proof.
  cbv zeta. split; [|split].
  - follow; reflexivity.
  - follow; intros Hc; try discriminate Hc.
    eexists. repeat split. exact V.
  - intros info. cbn. rewrite orb_true_iff. split.
    + intros [Hk|Hk]; [left|right].
      * destruct (apiKey info) as [[|c k]|]; try discriminate Hk. eauto.
      * destruct (userStatusProtoBinaryBase64 info) as [[|c k]|];
          try discriminate Hk. eauto.
    + intros [(c & k & ->)|(c & k & ->)]; [left|right]; reflexivity.
Qed.

End Management.

(* ===================================================================== *)
(** * Further properties of the export and import flows *)
(* ===================================================================== *)

Section MoreFlows.

Import Js Async Tauri App ConfigManagerHook Watch.

Variable H : Type.
Variable respond : H -> forall c : command, settled (reply c) * H.
Variable policy : string -> PasswordValidation.

Ltac reply_of_manager :=
  match goal with
  | |- context [respond ?h ?c] =>
      let r := fresh "r" in
      let h' := fresh "h" in
      let E := fresh "E" in
      destruct (respond h c) as [r h'] eqn:E; destruct r; cbn in *
  end.

(** X7. Submitting the export password closes the dialog, asks the manager
    once for the export under that password, and shows after the progress
    note exactly one result: the saved path, the manager's failure message
    as an error, or the thrown error as an error; the exporting flag is
    reset and nothing is thrown. *)
Theorem export_submit_reports_once (h : H) (s : State) (password : string) :
  let o := run respond exec (exportOnSubmit password) h s in
  completion o = Resolved tt
  /\ commands (trace o) = [exportEncryptedConfig password]
  /\ statuses (trace o)
     = [{| message := "正在生成加密配置文件..."; isError := false |};
        match fst (respond h (exportEncryptedConfig password)) with
        | Resolved exportResult =>
            if export_success exportResult
            then {| message := "配置文件已保存: " ++ interpolate (filePath exportResult);
                    isError := false |}
            else {| message := export_message exportResult; isError := true |}
        | Rejected e =>
            {| message := "导出配置文件失败: " ++ message_of e; isError := true |}
        end]
  /\ isExporting (ui o) = false
  /\ passwordDialogOpen (ui o) = false
  /\ scheduled (trace o) = [].
Proof.
  cbn. reply_of_manager.
  - destruct (export_success a); repeat split; reflexivity.
  - repeat split; reflexivity.
Qed.

(** X8. Submitting the import password schedules the refresh, 500 ms
    later, exactly when the manager reported success together with the
    decrypted data; a success without data is shown as a failure with the
    manager's message; in every case the dialog is closed, the importing
    flag is reset and nothing is thrown. *)
Theorem import_submit_refreshes_only_on_success (h : H) (s : State)
    (result : ImportResult) (password : string) :
  let o := run respond exec (importOnSubmit result password) h s in
  let answer := fst (respond h (decryptConfigData (encryptedData result) password)) in
  completion o = Resolved tt
  /\ commands (trace o) = [decryptConfigData (encryptedData result) password]
  /\ scheduled (trace o)
     = match answer with
       | Resolved decryptResult =>
           match decrypt_success decryptResult, configData decryptResult with
           | true, Some _ => [500%Z]
           | _, _ => []
           end
       | Rejected _ => []
       end
  /\ errors (trace o)
     = match answer with
       | Resolved decryptResult =>
           match decrypt_success decryptResult, configData decryptResult with
           | true, Some _ => []
           | _, _ => [{| message := decrypt_message decryptResult; isError := true |}]
           end
       | Rejected e =>
           [{| message := "导入配置文件失败: " ++ message_of e; isError := true |}]
       end
  /\ isImporting (ui o) = false
  /\ passwordDialogOpen (ui o) = false.
Proof.
  cbn. reply_of_manager.
  - destruct (decrypt_success a), (configData a); repeat split; reflexivity.
  - repeat split; reflexivity.
Qed.

(** X9. Picking the file to import: the password dialog opens exactly when
    the manager read a file successfully, and its submit decrypts the data
    of that file; a file that could not be read shows the manager's
    message, a thrown error shows [选择文件失败], each as the only status and
    an error; nothing is decrypted before a password is submitted and
    nothing is thrown. *)
Theorem import_opens_dialog_only_for_a_read_file (h : H) (s : State) :
  let o := run respond exec_flow (importConfig policy) h s in
  completion o = Resolved tt
  /\ flow_commands (trace o) = [importEncryptedConfig]
  /\ match fst (respond h importEncryptedConfig) with
     | Resolved result =>
         if import_success result
         then map onSubmit (prompts (trace o)) = [importOnSubmit result]
              /\ flow_statuses (trace o) = []
              /\ passwordDialogOpen (ui o) = true
         else prompts (trace o) = []
              /\ flow_statuses (trace o)
                 = [{| message := import_message result; isError := true |}]
              /\ passwordDialogOpen (ui o) = passwordDialogOpen s
     | Rejected e =>
         prompts (trace o) = []
         /\ flow_statuses (trace o)
            = [{| message := "选择文件失败: " ++ message_of e; isError := true |}]
         /\ passwordDialogOpen (ui o) = passwordDialogOpen s
     end.
Proof.
  cbn. reply_of_manager.
  - destruct (import_success a); repeat split; reflexivity.
  - repeat split; reflexivity.
Qed.

End MoreFlows.

(* ===================================================================== *)
(** * Status messages and their timers *)
(* ===================================================================== *)

Section StatusTimers.

Import Timers StatusNotification.

Lemma forget_clears (w : world Cells) :
  tidy w ->
  pending (forget w) = [] /\ timeoutRef (cells (forget w)) = None.
Proof.
  unfold tidy, forget. destruct (timeoutRef (cells w)) as [i|] eqn:E.
  - intros [d Hp]. cbn. rewrite Hp. cbn. rewrite Nat.eqb_refl. split; reflexivity.
  - intros Hp. rewrite E. split; [exact Hp|reflexivity].
Qed.

Lemma tidy_showStatus (timeoutMs : Z) (m : string) (e : bool) (w : world Cells) :
  tidy w -> tidy (showStatus timeoutMs m e w).
Proof.
  intros Hw. destruct (forget_clears w Hw) as [Hp Hr].
  unfold showStatus, tidy. destruct (nonempty m); cbn; rewrite ?Hp, ?Hr; cbn.
  - eexists. reflexivity.
  - reflexivity.
Qed.

Lemma tidy_elapse (d : Z) (w : world Cells) : tidy w -> tidy (elapse d w).
Proof.
  unfold tidy, elapse. destruct (timeoutRef (cells w)) as [i|] eqn:E.
  - intros [due Hp]. rewrite Hp. cbn [length fire]. rewrite Hp.
    cbn [earliest Timers.due].
    destruct (due <=? now w + Z.max 0 d)%Z; cbn.
    + rewrite Nat.eqb_refl. reflexivity.
    + rewrite E, Hp. eexists. reflexivity.
  - intros Hp. rewrite Hp. cbn. rewrite E. exact Hp.
Qed.

Lemma tidy_after (timeoutMs : Z) (history : list happening) :
  tidy (after timeoutMs history).
Proof.
  unfold after.
  assert (Hstart : tidy mounted) by reflexivity.
  revert Hstart. generalize mounted as w.
  induction history as [|x history IH]; intros w Hw; [exact Hw|].
  cbn [fold_left]. apply IH. destruct x; cbn [happen].
  - apply tidy_showStatus, Hw.
  - apply tidy_elapse, Hw.
  - unfold unmount. destruct (forget_clears w Hw) as [Hp Hr].
    unfold tidy. rewrite Hr. exact Hp.
Qed.

(** X10. Whatever was shown, whatever time passed and whatever was
    unmounted before, a message shown through [useStatusNotification]
    leaves exactly one timer pending, stays displayed until its own
    timeout has passed and is cleared then, with no timer left; an empty
    message clears the timer and sets none. *)
Theorem status_stays_until_its_own_timeout (timeoutMs : Z)
    (history : list happening) (message : string) (isError : bool) (d : Z) :
  (0 <= timeoutMs)%Z -> (0 <= d)%Z -> nonempty message = true ->
  let w := showStatus timeoutMs message isError (after timeoutMs history) in
  length (pending w) = 1
  /\ status (cells (elapse d w))
     = (if (d <? timeoutMs)%Z
        then {| App.message := message; App.isError := isError |}
        else blank)
  /\ ((timeoutMs <= d)%Z ->
      pending (elapse d w) = [] /\ timeoutRef (cells (elapse d w)) = None)
  /\ pending (showStatus timeoutMs EmptyString isError (after timeoutMs history)) = [].
Proof.
  intros Ht Hd Hm. cbv zeta.
  destruct (forget_clears _ (tidy_after timeoutMs history)) as [Hp Hr].
  unfold showStatus. rewrite Hm. cbn [nonempty].
  cbn -[Z.add Z.max forget]. rewrite Hp. cbn -[Z.add Z.max forget].
  rewrite !Z.max_r by lia.
  split; [reflexivity|].
  destruct (Z.ltb_spec d timeoutMs) as [Hlt|Hge].
  - replace (now (forget (after timeoutMs history)) + timeoutMs
             <=? now (forget (after timeoutMs history)) + d)%Z
      with false by (symmetry; apply Z.leb_gt; lia).
    cbn. repeat split; trivial; lia.
  - replace (now (forget (after timeoutMs history)) + timeoutMs
             <=? now (forget (after timeoutMs history)) + d)%Z
      with true by (symmetry; apply Z.leb_le; lia).
    cbn. rewrite Nat.eqb_refl. repeat split; trivial.
Qed.

End StatusTimers.

Section MainStatusTimers.

Import Timers MainStatus.

(** X11. [showStatus] of the main component never cancels a timer: a
    status shown [d] milliseconds after another one, with [d] below five
    seconds, is displayed until the timer of the earlier one fires and is
    cleared by it, [5000 - d] milliseconds after it was shown. *)
Theorem earlier_timer_clears_later_status (m1 m2 : string) (e1 e2 : bool)
    (d d' : Z) :
  (0 <= d < 5000)%Z -> (0 <= d')%Z ->
  let w := showStatus m2 e2 (elapse d (showStatus m1 e1 mounted)) in
  length (pending w) = 2
  /\ cells (elapse d' w)
     = (if (d' <? 5000 - d)%Z
        then {| App.message := m2; App.isError := e2 |}
        else blank).
Proof.
  intros Hd Hd'. cbv zeta.
  unfold showStatus, mounted, boot, elapse, setTimeout, write.
  cbv -[Z.add Z.max Z.leb Z.ltb Z.sub].
  rewrite !(Z.max_r 0 d) by lia. rewrite !(Z.max_r 0 d') by lia.
  change (Z.max 0 5000) with 5000%Z.
  replace (0 + 5000 <=? 0 + d)%Z with false by (symmetry; apply Z.leb_gt; lia).
  cbv -[Z.add Z.max Z.leb Z.ltb Z.sub].
  split; [reflexivity|].
  replace (0 + d + 5000 <? 0 + 5000)%Z with false by (symmetry; apply Z.ltb_ge; lia).
  destruct (Z.ltb_spec d' (5000 - d)) as [Hlt|Hge].
  - replace (0 + 5000 <=? 0 + d + d')%Z with false by (symmetry; apply Z.leb_gt; lia).
    reflexivity.
  - replace (0 + 5000 <=? 0 + d + d')%Z with true by (symmetry; apply Z.leb_le; lia).
    cbv -[Z.add Z.max Z.leb Z.ltb Z.sub].
    destruct (0 + d + 5000 <=? 0 + d + d')%Z; reflexivity.
Qed.

End MainStatusTimers.

Section LoaderTimers.

Import Timers GlobalLoader.

(** X12. The global loader opened without a duration closes after one
    second.  No timer is ever cancelled: opened again while the timer of
    an earlier [open] is pending, the loader shows the new label and is
    closed when that earlier timer fires, also when the second call asked
    for a duration that ends later; and [close] closes at once. *)
Theorem loader_closes_on_the_earliest_timer (la lb : string) (d1 d2 t d : Z) :
  (0 <= t < d1)%Z -> (d1 - t <= d2)%Z -> (0 <= d)%Z ->
  let once := open {| config_label := la; duration := None |} created in
  let twice := open {| config_label := lb; duration := Some d2 |}
                    (elapse t (open {| config_label := la; duration := Some d1 |}
                                    created)) in
  cells (elapse d once)
  = (if (d <? 1000)%Z then {| loading := true; label := la |} else closed)
  /\ cells twice = {| loading := true; label := lb |}
  /\ cells (elapse (d1 - t) twice) = closed
  /\ cells (close twice) = closed.
Proof.
  intros Ht Hd2 Hd. cbv zeta.
  unfold open, created, boot, elapse, setTimeout, write, close.
  cbv -[Z.add Z.max Z.leb Z.ltb Z.sub].
  rewrite !(Z.max_r 0 d) by lia. rewrite !(Z.max_r 0 t) by lia.
  rewrite !(Z.max_r 0 d1) by lia. rewrite !(Z.max_r 0 d2) by lia.
  rewrite !(Z.max_r 0 (d1 - t)) by lia.
  change (Z.max 0 1000) with 1000%Z.
  split; [|split; [|split]].
  - destruct (Z.ltb_spec d 1000).
    + replace (0 + 1000 <=? 0 + d)%Z with false by (symmetry; apply Z.leb_gt; lia).
      reflexivity.
    + replace (0 + 1000 <=? 0 + d)%Z with true by (symmetry; apply Z.leb_le; lia).
      reflexivity.
  - replace (0 + d1 <=? 0 + t)%Z with false by (symmetry; apply Z.leb_gt; lia).
    reflexivity.
  - replace (0 + d1 <=? 0 + t)%Z with false by (symmetry; apply Z.leb_gt; lia).
    cbv -[Z.add Z.max Z.leb Z.ltb Z.sub].
    destruct (Z.ltb_spec (0 + t + d2) (0 + d1)); [lia|].
    replace (0 + d1 <=? 0 + t + (d1 - t))%Z with true by (symmetry; apply Z.leb_le; lia).
    cbv -[Z.add Z.max Z.leb Z.ltb Z.sub].
    destruct (0 + t + d2 <=? 0 + t + (d1 - t))%Z; reflexivity.
  - reflexivity.
Qed.

End LoaderTimers.

(* ===================================================================== *)
(** * The start of the application *)
(* ===================================================================== *)

Section Startup.

Import Js Async Trace AppInitialization.

Variable H : Type.
Variable respond : H -> forall c : command, settled (reply c) * H.

Ltac reply_of_service :=
  match goal with
  | |- context [respond ?h ?c] =>
      let r := fresh "r" in
      let h' := fresh "h" in
      let E := fresh "E" in
      destruct (respond h c) as [r h'] eqn:E; destruct r; cbn in *
  end.

(** X13. The detection at startup always ends with [isDetecting] reset and
    [antigravityFound] decided: found exactly when both detections
    resolved and found their target, and otherwise the path dialog is
    opened.  The backup list is read only when both were found, once and
    without an auto-backup; the executable is not looked for when the
    detection of the data path was rejected.  Choosing a path in the
    dialog closes it, marks the installation as found and reads the list
    once, again without an auto-backup. *)
Theorem startup_detection_always_decides (h : H) (s : State) :
  let o := run respond exec (detectAndInit BackupManagement.refreshBackupList)
               h starting in
  let first := respond h detectAntigravityPath in
  let second := respond (snd first) detectExecutable in
  let both := bothFound (fst first) (fst second) in
  let chosen := run respond exec
                    (handlePathSelected BackupManagement.refreshBackupList) h s in
  completion o = Resolved tt
  /\ isDetecting (ui o) = false
  /\ antigravityFound (ui o) = Some both
  /\ isPathDialogOpen (ui o) = negb both
  /\ issued (trace o)
     = detectAntigravityPath
       :: (if is_rejected (fst first) then []
           else detectExecutable
                :: (if both then [Backup Tauri.list_backups] else []))
  /\ completion chosen = Resolved tt
  /\ isPathDialogOpen (ui chosen) = false
  /\ antigravityFound (ui chosen) = Some true
  /\ issued (trace chosen) = [Backup Tauri.list_backups].
Proof.
  cbv zeta. split; [|split; [|split; [|split; [|split]]]].
  1-5: cbn; reply_of_service; try (repeat split; reflexivity);
       reply_of_service; try (repeat split; reflexivity);
       destruct (found a && found a0); cbn; try reflexivity;
       reply_of_service; reflexivity.
  cbn. reply_of_service; repeat split; reflexivity.
Qed.

End Startup.

Section UnifiedStartup.

Import Js Async Trace UnifiedApp.
Import AppInitialization (bothFound).

Variable H : Type.
Variable respond : H -> forall c : command, settled (reply c) * H.

Ltac reply_of_detector :=
  match goal with
  | |- context [respond ?h ?c] =>
      let r := fresh "r" in
      let h' := fresh "h" in
      let E := fresh "E" in
      destruct (respond h c) as [r h'] eqn:E; destruct r; cbn in *
  end.

(** X14. [initializeApp] never leaves the detecting screen up: after it the
    main screen is rendered when both detections resolved and found their
    target, and the path dialog otherwise, also when a detection was
    rejected.  Choosing a path closes the dialog and detects again, so the
    dialog comes back unless both are found now; cancelling the dialog
    asks to exit and swallows a failure of that. *)
Theorem initialization_leaves_the_detecting_screen (h : H) (s : State) :
  let first := respond h detectAntigravityPath in
  let second := respond (snd first) detectExecutable in
  let both := bothFound (fst first) (fst second) in
  let started := run respond exec initializeApp h starting in
  let chosen := run respond exec handlePathSelected h s in
  let cancelled := run respond exec handlePathDialogCancel h s in
  completion started = Resolved tt
  /\ render (ui started) = (if both then MainScreen else PathDialogScreen)
  /\ completion chosen = Resolved tt
  /\ isDetecting (ui chosen) = false
  /\ isPathDialogOpen (ui chosen) = negb both
  /\ issued (trace chosen) = [detectAntigravityPath; detectExecutable]
  /\ completion cancelled = Resolved tt
  /\ ui cancelled = s
  /\ issued (trace cancelled) = [exit 0].
Proof.
  cbv zeta. cbn.
  repeat reply_of_detector;
    try destruct (AppInitialization.found a && AppInitialization.found a0); cbn;
    repeat match goal with u : unit |- _ => destruct u end;
    repeat split; reflexivity.
Qed.

End UnifiedStartup.

(* ===================================================================== *)
(** * The path dialog *)
(* ===================================================================== *)

Section PathDialogProperties.

Import Js Async Trace PathDialog.

Variable H : Type.
Variable respond : H -> forall c : command, settled (reply c) * H.

Ltac reply_of_path_service :=
  match goal with
  | |- context [respond ?h ?c] =>
      let r := fresh "r" in
      let h' := fresh "h" in
      let E := fresh "E" in
      destruct (respond h c) as [r h'] eqn:E; destruct r; cbn in *
  end.

(** X15. Saving never throws and resets [isSaving].  Without a data path
    that is set and marked valid it only sets an error message and saves
    nothing.  Otherwise it saves the data path first, saves the executable
    only when one is set and marked valid and the data path was saved, and
    calls [onPathSelected], once, exactly when no save was rejected; a
    rejected save is shown as [保存失败]. *)
Theorem save_needs_a_valid_data_path (h : H) (s : State) :
  let o := run respond exec (handleSave s) h s in
  let dataSaved := respond h (savePath (dataPath s)) in
  let withExecutable := negb (empty (execPath s)) && isExecPathValid s in
  completion o = Resolved tt
  /\ (if empty (dataPath s) || negb (isDataPathValid s)
      then issued (trace o) = []
           /\ ui o = exec (setErrorMessage "请先选择有效的数据目录") s
      else issued (trace o)
           = savePath (dataPath s)
             :: (if negb (is_rejected (fst dataSaved)) && withExecutable
                 then [saveExecutable (execPath s)] else [])
           /\ isSaving (ui o) = false
           /\ selections (ui o)
              = (if rejected (trace o) then selections s else S (selections s))
           /\ (rejected (trace o) = true ->
               exists e, errorMessage (ui o) = "保存失败: " ++ to_string e)).
Proof.
  cbv zeta. unfold handleSave.
  destruct (empty (dataPath s) || negb (isDataPathValid s)).
  - repeat split; reflexivity.
  - cbn. reply_of_path_service.
    + destruct (negb (empty (execPath s)) && isExecPathValid s); cbn.
      * reply_of_path_service; repeat split; try reflexivity;
          intros; try discriminate; eexists; reflexivity.
      * repeat split; try reflexivity. intros; discriminate.
    + repeat split; try reflexivity. intros. eexists. reflexivity.
Qed.

(** X16. Browsing for the data directory never throws.  A cancelled picker
    changes nothing and validates nothing.  A picked directory becomes the
    data path and is the one validated; when the validation resolves, its
    verdict becomes [isDataPathValid], the validating flag is reset and
    the error message says when the database file is missing.  When the
    validation is rejected the new path stays with the verdict of the
    earlier one, and the validating flag stays set. *)
Theorem browse_validates_the_picked_directory (h : H) (s : State) :
  let o := run respond exec handleBrowseDataPath h s in
  let chosen := respond h openDataDirectory in
  completion o = Resolved tt
  /\ match fst chosen with
     | Resolved result =>
         match picked result with
         | None => ui o = s /\ issued (trace o) = [openDataDirectory]
         | Some p =>
             dataPath (ui o) = p
             /\ issued (trace o) = [openDataDirectory; validatePath p]
             /\ match fst (respond (snd chosen) (validatePath p)) with
                | Resolved valid =>
                    isDataPathValid (ui o) = valid
                    /\ isValidatingData (ui o) = false
                    /\ errorMessage (ui o)
                       = (if valid then EmptyString
                          else "此目录中未找到 state.vscdb 文件")
                | Rejected e =>
                    isDataPathValid (ui o) = isDataPathValid s
                    /\ isValidatingData (ui o) = true
                    /\ errorMessage (ui o) = "选择失败: " ++ to_string e
                end
         end
     | Rejected e =>
         ui o = exec (setErrorMessage ("选择失败: " ++ to_string e)) s
         /\ issued (trace o) = [openDataDirectory]
     end.
Proof.
  cbv zeta. cbn. reply_of_path_service.
  - destruct (picked a) as [p|]; cbn.
    + reply_of_path_service.
      * destruct a0; repeat split; reflexivity.
      * repeat split; reflexivity.
    + split; [reflexivity|]. split; [|reflexivity]. destruct s; reflexivity.
  - repeat split; reflexivity.
Qed.

(** X17. A rejected validation lets an unchecked directory through: when
    the earlier data path was valid and the validation of a newly picked
    directory is rejected, the browse button stays disabled, the save
    button stays enabled, and saving saves the new directory. *)
Theorem rejected_validation_keeps_the_old_verdict (h h1 h2 : H) (s : State)
    (a : ascii) (p : string) (e : error) :
  isDataPathValid s = true ->
  isSaving s = false ->
  respond h openDataDirectory = (Resolved (Some (String a p)), h1) ->
  respond h1 (validatePath (String a p)) = (Rejected e, h2) ->
  let o := run respond exec handleBrowseDataPath h s in
  browseDataDisabled (ui o) = true
  /\ saveDisabled (ui o) = false
  /\ hd_error (issued (trace (run respond exec (handleSave (ui o)) (host o) (ui o))))
     = Some (savePath (String a p)).
Proof.
  intros Hv Hs E1 E2. cbn. rewrite E1. cbn. rewrite E2. cbn.
  unfold saveDisabled, canSave, handleSave. cbn. rewrite Hv, Hs. cbn.
  repeat split.
  destruct (respond h2 (savePath (String a p))) as [r h3]; reflexivity.
Qed.

(** X21. Browsing for the executable never throws.  A cancelled picker
    changes nothing; a picked file becomes the executable path, and its
    verdict becomes [isExecPathValid] with the validating flag reset when
    the validation resolves; when the validation is rejected the verdict
    of the earlier file stays and the validating flag stays set. *)
Theorem browse_validates_the_picked_executable (h : H) (s : State) :
  let o := run respond exec handleBrowseExecPath h s in
  let chosen := respond h openExecutableFile in
  completion o = Resolved tt
  /\ match fst chosen with
     | Resolved result =>
         match picked result with
         | None => ui o = s
         | Some p =>
             execPath (ui o) = p
             /\ match fst (respond (snd chosen) (validateExecutable p)) with
                | Resolved valid =>
                    isExecPathValid (ui o) = valid
                    /\ isValidatingExec (ui o) = false
                | Rejected e =>
                    isExecPathValid (ui o) = isExecPathValid s
                    /\ isValidatingExec (ui o) = true
                end
         end
     | Rejected e => execPath (ui o) = execPath s
     end.
Proof.
  cbv zeta. cbn. reply_of_path_service.
  - destruct (picked a) as [p|]; cbn.
    + reply_of_path_service; [destruct a0|]; repeat split; reflexivity.
    + split; [reflexivity|]. destruct s; reflexivity.
  - repeat split; reflexivity.
Qed.

End PathDialogProperties.

(* ===================================================================== *)
(** * Logging in to a new account, and the toolbar *)
(* ===================================================================== *)

Section ProcessProperties.

Import Js Async Trace AntigravityProcess.

Variable H : Type.
Variable respond : H -> forall c : command, settled (reply c) * H.

(** X18. Backing up and restarting never throws and always resets the
    loading flag; it schedules the refresh, one second later, exactly when
    the service resolved, and shows the message of the error, as an error,
    exactly when the service was rejected. *)
Theorem restart_refreshes_only_on_success (h : H) (s : State) :
  let o := run respond exec backupAndRestartAntigravity h s in
  completion o = Resolved tt
  /\ isProcessLoading (ui o) = false
  /\ performed (trace o)
     = ([setIsProcessLoading true; showStatus "正在备份当前用户并注销..." false]
        ++ [match fst (respond h AntigravityService_backupAndRestartAntigravity) with
            | Resolved _ => scheduleRefresh 1000
            | Rejected e => showStatus (message_of e) true
            end]
        ++ [setIsProcessLoading false])%list.
Proof.
  cbn. destruct (respond h AntigravityService_backupAndRestartAntigravity) as [[u|e] h'];
    repeat split; reflexivity.
Qed.

End ProcessProperties.

Section ToolbarProperties.

Import Js Async Trace Toolbar.

Variable H : Type.
Variable respond : H -> forall c : command, settled (reply c) * H.
Variable trim : string -> string.

Ltac reply_of_toolbar :=
  match goal with
  | |- context [respond ?h ?c] =>
      let r := fresh "r" in
      let h' := fresh "h" in
      let E := fresh "E" in
      destruct (respond h c) as [r h'] eqn:E; destruct r; cbn in *
  end.

(** X19. The language-server test reads the accounts before its [try]: when
    that read is rejected the handler throws, shows nothing and leaves
    [isTestingLS] set.  After the read, the flag is always reset and one
    status is shown: without a key, or with a key that is empty once
    trimmed, the error that the key is missing, and the server is not
    called; otherwise the server is called once with the key as it was
    typed, not trimmed, and the outcome of the call is shown. *)
Theorem language_server_test_needs_a_key (h : H) (s : State) :
  let o := run respond exec (handleTestLanguageServer trim) h s in
  let accounts := respond h getAccounts in
  let typed := respond (snd accounts) (prompt "请输入语言服务器 apiKey") in
  match fst accounts with
  | Rejected e =>
      completion o = Rejected e
      /\ isTestingLS (ui o) = true
      /\ statuses (trace o) = []
      /\ issued (trace o) = [getAccounts]
  | Resolved _ =>
      completion o = Resolved tt
      /\ isTestingLS (ui o) = false
      /\ length (statuses (trace o)) = 1
      /\ match fst typed with
         | Resolved apiKey =>
             match entered trim apiKey with
             | None =>
                 statuses (trace o)
                 = [{| App.message := "apiKey 不能为空"; App.isError := true |}]
                 /\ issued (trace o)
                    = [getAccounts; prompt "请输入语言服务器 apiKey"]
             | Some key =>
                 apiKey = Some key
                 /\ issued (trace o)
                    = [getAccounts; prompt "请输入语言服务器 apiKey";
                       language_server_get_user_status key]
             end
         | Rejected _ =>
             issued (trace o) = [getAccounts; prompt "请输入语言服务器 apiKey"]
         end
  end.
Proof.
  cbv zeta. cbn. reply_of_toolbar; [|repeat split; reflexivity].
  reply_of_toolbar.
  - destruct (entered trim a0) as [key|] eqn:K; cbn.
    + reply_of_toolbar; repeat split; try reflexivity.
      all: unfold entered in K; destruct a0 as [[|c k]|]; try discriminate K;
        destruct (String.eqb (trim (String c k)) EmptyString); try discriminate K;
        injection K as <-; reflexivity.
    + repeat split; reflexivity.
  - repeat split; reflexivity.
Qed.

(** X20. A failed download and a failed install of an update are silent and
    never throw: the download shows its one status only after it
    succeeded, and the install shows its note before it starts and nothing
    after.  Adding the current user shows one status, the success or the
    rejection as an error. *)
Theorem update_failures_are_silent (h : H) (s : State) :
  let downloaded := run respond exec handleStartDownload h s in
  let installed := run respond exec handleInstallAndRelaunch h s in
  let added := run respond exec handleAddCurrentUser h s in
  completion downloaded = Resolved tt
  /\ statuses (trace downloaded)
     = (if is_rejected (fst (respond h startDownload)) then []
        else [{| App.message := "更新包下载完成，点击重启按钮安装";
                 App.isError := false |}])
  /\ completion installed = Resolved tt
  /\ statuses (trace installed)
     = [{| App.message := "正在安装更新并重启应用..."; App.isError := false |}]
  /\ completion added = Resolved tt
  /\ statuses (trace added)
     = [match fst (respond h addCurrentUser) with
        | Resolved _ => {| App.message := "已添加当前用户"; App.isError := false |}
        | Rejected e =>
            {| App.message := "添加当前用户失败: " ++ to_string e;
               App.isError := true |}
        end].
Proof.
  cbv zeta. cbn.
  repeat reply_of_toolbar;
    repeat match goal with u : unit |- _ => destruct u end;
    repeat split; reflexivity.
Qed.

End ToolbarProperties.

(* ===================================================================== *)
(** * Further concrete runs *)
(* ===================================================================== *)

Section FurtherRuns.

Import Js Async.

(** X6 at an account whose e-mail is [null]: the write carries [null] and
    the status prints it. *)
Lemma auto_backup_of_an_account_without_email :
  let o := run Rehearsal.lenient App.exec BackupManagement.autoBackupCurrentUser
               tt App.initial in
  completion o = Resolved true
  /\ App.commands (trace o)
     = [Tauri.get_current_antigravity_info;
        Tauri.backup_antigravity_current_account Null]
  /\ App.statuses (trace o)
     = [{| App.message := "已自动备份当前用户: null"; App.isError := false |}].
Proof. repeat split; reflexivity. Qed.

(** X5 at a store where nobody is logged in. *)
Lemma refresh_keeps_the_note_of_auto_backup_witness :
  let backed := run Store.respond App.exec BackupManagement.autoBackupCurrentUser
                    Scenario.empty_store
                    (App.exec (App.setBackups []) Scenario.stale) in
  let o := run Store.respond App.exec (BackupManagement.refreshBackupList false)
               Scenario.empty_store Scenario.stale in
  App.statuses (trace o) = App.statuses (trace backed)
  /\ App.status (ui o) = App.status (ui backed)
  /\ Observe.timeline (trace o)
     = Observe.Call Tauri.list_backups :: Observe.timeline (trace backed).
Proof.
  apply (refresh_keeps_the_note_of_auto_backup Store.store Store.respond
           Scenario.empty_store Scenario.empty_store Scenario.stale []);
    reflexivity.
Defined.

(** X10 after an earlier message and a second of waiting. *)
Lemma status_stays_until_its_own_timeout_witness :
  let history := [StatusNotification.Shown "first" false;
                  StatusNotification.Passed 1000] in
  let w := StatusNotification.showStatus 5000 "saved" false
             (StatusNotification.after 5000 history) in
  length (Timers.pending w) = 1
  /\ StatusNotification.status (Timers.cells (Timers.elapse 4999 w))
     = (if (4999 <? 5000)%Z
        then {| App.message := "saved"; App.isError := false |}
        else StatusNotification.blank)
  /\ ((5000 <= 4999)%Z ->
      Timers.pending (Timers.elapse 4999 w) = []
      /\ StatusNotification.timeoutRef (Timers.cells (Timers.elapse 4999 w)) = None)
  /\ Timers.pending
       (StatusNotification.showStatus 5000 EmptyString false
          (StatusNotification.after 5000 history)) = [].
Proof.
  apply (status_stays_until_its_own_timeout 5000
           [StatusNotification.Shown "first" false; StatusNotification.Passed 1000]
           "saved" false 4999); [lia | lia | reflexivity].
Defined.

(** X11 with the second status four seconds after the first. *)
Lemma earlier_timer_clears_later_status_witness :
  let w := MainStatus.showStatus "second" false
             (Timers.elapse 4000 (MainStatus.showStatus "first" true
                                    MainStatus.mounted)) in
  length (Timers.pending w) = 2
  /\ Timers.cells (Timers.elapse 1000 w)
     = (if (1000 <? 5000 - 4000)%Z
        then {| App.message := "second"; App.isError := false |}
        else MainStatus.blank).
Proof.
  apply (earlier_timer_clears_later_status "first" "second" true false 4000 1000);
    lia.
Defined.

(** X12 with a loader of five seconds opened 400 ms into one of one
    second. *)
Lemma loader_closes_on_the_earliest_timer_witness :
  let once := GlobalLoader.open
                {| GlobalLoader.config_label := "switching";
                   GlobalLoader.duration := None |} GlobalLoader.created in
  let twice := GlobalLoader.open
                 {| GlobalLoader.config_label := "importing";
                    GlobalLoader.duration := Some 5000%Z |}
                 (Timers.elapse 400
                    (GlobalLoader.open
                       {| GlobalLoader.config_label := "switching";
                          GlobalLoader.duration := Some 1000%Z |}
                       GlobalLoader.created)) in
  Timers.cells (Timers.elapse 999 once)
  = (if (999 <? 1000)%Z
     then {| GlobalLoader.loading := true; GlobalLoader.label := "switching" |}
     else GlobalLoader.closed)
  /\ Timers.cells twice
     = {| GlobalLoader.loading := true; GlobalLoader.label := "importing" |}
  /\ Timers.cells (Timers.elapse (1000 - 400) twice) = GlobalLoader.closed
  /\ Timers.cells (GlobalLoader.close twice) = GlobalLoader.closed.
Proof.
  apply (loader_closes_on_the_earliest_timer "switching" "importing"
           1000 5000 400 999); lia.
Defined.

(** X17 at a path service that cannot read the picked directory. *)
Lemma rejected_validation_keeps_the_old_verdict_witness :
  let o := run Rehearsal.unreadable PathDialog.exec PathDialog.handleBrowseDataPath
               tt Rehearsal.configured in
  PathDialog.browseDataDisabled (ui o) = true
  /\ PathDialog.saveDisabled (ui o) = false
  /\ hd_error (Trace.issued (trace (run Rehearsal.unreadable PathDialog.exec
                                        (PathDialog.handleSave (ui o)) (host o) (ui o))))
     = Some (PathDialog.savePath "/mnt/usb/globalStorage").
Proof.
  apply (rejected_validation_keeps_the_old_verdict unit Rehearsal.unreadable
           tt tt tt Rehearsal.configured "/"%char "mnt/usb/globalStorage"
           (Thrown "permission denied")); reflexivity.
Defined.

End FurtherRuns.
